(** * Image-Fixing-Tool: the client workflow of [Home] (pages/index.tsx)

    A shallow embedding of the React component [Home]: its six pieces of
    state, the event handlers [onDrop], [handleDimensionChange],
    [checkImage], [processImage] and [reset], the two action buttons with
    their [disabled] attributes, and the object-URL registry of the
    browser.  Asynchronous handlers are split at their [await] points: the
    part that runs on the click, and the continuation that runs when the
    awaited promise settles. *)

From Stdlib Require Import ZArith QArith Qround Qabs Qpower.
From Stdlib Require Import Lia Lqa List Ascii String DecimalString Bool.
Import ListNotations.

Local Open Scope Z_scope.

(** ** JavaScript numbers

    A finite JavaScript number is an IEEE 754 binary64 value; it is
    represented here by the rational it denotes.  [round64] is rounding to
    the nearest binary64 value, ties to even, as [/] and [*] apply it to the
    exact result.  The exponent is left unbounded: products and quotients of
    integers below 2^53 stay far inside the normal range of binary64, so no
    overflow, underflow or subnormal result arises from the operands the
    component feeds to these operators.  Division by zero, which gives an
    infinity or NaN, is outside the model: the statements below take the
    natural size of an image to be positive. *)
Module Float64.

Local Open Scope Q_scope.

(** [ilog2 x] is the exponent of [x]: [2^(ilog2 x) <= |x| < 2^(ilog2 x + 1)]. *)
Definition ilog2 (x : Q) : Z :=
  let k := (Z.log2 (Z.abs (Qnum x)) - Z.log2 (Zpos (Qden x)))%Z in
  if Qle_bool (2 ^ k) (Qabs x) then k else (k - 1)%Z.

(** Nearest integer, ties to the even one. *)
Definition rne (x : Q) : Z :=
  let f := Qfloor x in
  match Qcompare (x - inject_Z f) (1 # 2) with
  | Lt => f
  | Gt => (f + 1)%Z
  | Eq => if Z.even f then f else (f + 1)%Z
  end.

(** Nearest number with a 53-bit significand. *)
Definition round64 (x : Q) : Q :=
  if Qeq_bool x 0 then 0
  else let e := (ilog2 x - 52)%Z in
       Qred (inject_Z (rne (x / 2 ^ e)) * 2 ^ e).

(** The operators [x / y] and [x * y] on numbers. *)
Definition fdiv (x y : Q) : Q := round64 (x / y).
Definition fmul (x y : Q) : Q := round64 (x * y).

(** [Math.round]: the nearest integer, a tie going up. *)
Definition Math_round (x : Q) : Z := Qfloor (x + (1 # 2)).

(** The unit roundoff of binary64, 2^-53. *)
Definition u : Q := 1 # 9007199254740992.

End Float64.

(** ** Values that cross the network

    [response.json()] is typed [any]: whatever JSON value the server sent is
    what [checkImage] stores and inspects. *)
#[local] Unset Elimination Schemes.
Inductive json : Type :=
| JNull
| JBool (b : bool)
| JNum (q : Q)
| JStr (s : string)
| JArr (items : list json)
| JObj (fields : list (string * json)).
#[local] Set Elimination Schemes.

(** A thrown value: an [Error] object with its message, or anything else. *)
Inductive thrown : Type :=
| ErrorObj (message : string)
| NotAnError.

(** The outcome of a promise. *)
Inductive settled (A : Type) : Type :=
| Resolved (a : A)
| Rejected (e : thrown).
Arguments Resolved {A} a.
Arguments Rejected {A} e.

(** The value of an expression that may throw. *)
Inductive result (A : Type) : Type :=
| Ok (a : A)
| Throw (e : thrown).
Arguments Ok {A} a.
Arguments Throw {A} e.

Definition bind {A B : Type} (r : result A) (k : A -> result B) : result B :=
  match r with
  | Ok a => k a
  | Throw e => Throw e
  end.

Notation "x <- r ;; k" := (bind r (fun x => k))
  (at level 61, r at next level, right associativity).

Local Open Scope string_scope.

(** [JSON.parse] keeps the last of several members with the same name. *)
Fixpoint lookup (key : string) (fields : list (string * json)) : option json :=
  match fields with
  | [] => None
  | (k, v) :: rest =>
      match lookup key rest with
      | Some v' => Some v'
      | None => if String.eqb k key then Some v else None
      end
  end.

(** The message of the [TypeError] a property read on [null] throws (the
    wording is the engine's; this is V8's). *)
Definition null_read_message (key : string) : string :=
  "Cannot read properties of null (reading '" ++ key ++ "')".

(** [v.key]: [None] is [undefined].  Reading a property of [null] throws; a
    primitive or an array has no own property of these names. *)
Definition get (v : json) (key : string) : result (option json) :=
  match v with
  | JNull => Throw (ErrorObj (null_read_message key))
  | JObj fields => Ok (lookup key fields)
  | _ => Ok None
  end.

(** Truthiness, as [!] and conditionals see it. *)
Definition truthy (v : option json) : bool :=
  match v with
  | None => false
  | Some JNull => false
  | Some (JBool b) => b
  | Some (JNum q) => negb (Qeq_bool q 0)
  | Some (JStr s) => negb (String.eqb s "")
  | Some (JArr _) => true
  | Some (JObj _) => true
  end.

(** ** The interfaces of the component *)

Record File : Type := mkFile { name : string; size : N }.

Record OriginalImage : Type := mkOriginalImage {
  file : File;
  preview : string
}.

Record DimensionSettings : Type := mkDimensions { width : Z; height : Z }.

(** An object URL, as [URL.createObjectURL] hands them out. *)
Definition ObjectURL : Type := nat.

Module ProcessingState.
Record t : Type := mk {
  isProcessing : bool;
  error : option string;
  processedImage : option ObjectURL;
  processedImageDimensions : option DimensionSettings
}.
End ProcessingState.

Module CheckState.
(** [results] holds [JNull] where the source holds [null]. *)
Record t : Type := mk {
  isChecking : bool;
  error : option string;
  results : json
}.
End CheckState.

Record FixOptions : Type := mkFixOptions {
  fix_dimensions : bool;
  fix_background : bool;
  fix_alignment : bool
}.

(** The state of [Home]: one field per [useState]. *)
Record Home : Type := mkHome {
  originalImage : option OriginalImage;
  originalDimensions : option DimensionSettings;
  dimensions : DimensionSettings;
  state : ProcessingState.t;
  checkState : CheckState.t;
  fixOptions : FixOptions
}.

Definition initial : Home := {|
  originalImage := None;
  originalDimensions := None;
  dimensions := {| width := 1200; height := 1200 |};
  state := ProcessingState.mk false None None None;
  checkState := CheckState.mk false None JNull;
  fixOptions := {| fix_dimensions := true; fix_background := true; fix_alignment := true |}
|}.

(** The setters of [useState]. *)
Definition setOriginalImage (v : option OriginalImage) (s : Home) : Home :=
  mkHome v (originalDimensions s) (dimensions s) (state s) (checkState s) (fixOptions s).
Definition setOriginalDimensions (v : option DimensionSettings) (s : Home) : Home :=
  mkHome (originalImage s) v (dimensions s) (state s) (checkState s) (fixOptions s).
Definition setDimensions (f : DimensionSettings -> DimensionSettings) (s : Home) : Home :=
  mkHome (originalImage s) (originalDimensions s) (f (dimensions s)) (state s)
         (checkState s) (fixOptions s).
Definition setState (f : ProcessingState.t -> ProcessingState.t) (s : Home) : Home :=
  mkHome (originalImage s) (originalDimensions s) (dimensions s) (f (state s))
         (checkState s) (fixOptions s).
Definition setCheckState (f : CheckState.t -> CheckState.t) (s : Home) : Home :=
  mkHome (originalImage s) (originalDimensions s) (dimensions s) (state s)
         (f (checkState s)) (fixOptions s).
Definition setFixOptions (f : FixOptions -> FixOptions) (s : Home) : Home :=
  mkHome (originalImage s) (originalDimensions s) (dimensions s) (state s)
         (checkState s) (f (fixOptions s)).

(** ** The browser: the registry of object URLs *)
Record Browser : Type := mkBrowser {
  created : nat;                  (* how many URLs were handed out *)
  live : list ObjectURL;          (* created and not yet revoked *)
  revoked : list ObjectURL        (* every call of revokeObjectURL, latest first *)
}.

Definition fresh_browser : Browser := mkBrowser 0 [] [].

Definition createObjectURL (b : Browser) : ObjectURL * Browser :=
  (created b, mkBrowser (S (created b)) (created b :: live b) (revoked b)).

Definition revokeObjectURL (u : ObjectURL) (b : Browser) : Browser :=
  mkBrowser (created b) (filter (fun v => negb (Nat.eqb v u)) (live b)) (u :: revoked b).

(** ** What the component sends *)
Inductive Request : Type :=
| CheckImage (file : File) (target_width target_height : Z)
| ProcessImage (file : File) (fix_dimensions fix_background fix_alignment : bool)
               (target_width target_height : Z).

(** A response as the handlers observe it: the status, and what each way of
    reading the body settles to. *)
Record Response : Type := mkResponse {
  status : N;
  text : settled string;
  json_body : settled json;
  blob : settled string
}.

Definition ok (r : Response) : bool := ((200 <=? status r) && (status r <=? 299))%N.

(** ** [onDrop] *)

(** The body of [onDrop]: a rejected file stores the message and stops;
    otherwise the first accepted file, if any, is handed to the
    [FileReader]. *)
Definition onDrop (acceptedFiles rejectedFiles : list File) (s : Home)
  : Home * option File :=
  match rejectedFiles with
  | _ :: _ =>
      (setState (fun prev =>
         ProcessingState.mk (ProcessingState.isProcessing prev)
           (Some "Please upload a valid image file")
           (ProcessingState.processedImage prev)
           (ProcessingState.processedImageDimensions prev)) s,
       None)
  | [] =>
      match acceptedFiles with
      | f :: _ => (s, Some f)
      | [] => (s, None)
      end
  end.

(** [img.onload] inside [reader.onload]: the file was read as the data URL
    [readerResult] and decoded to an image of [img_width] x [img_height]. *)
Definition onDrop_img_onload (f : File) (readerResult : string)
    (img_width img_height : Z) (s : Home) : Home :=
  let s := setOriginalImage (Some {| file := f; preview := readerResult |}) s in
  let s := setOriginalDimensions (Some {| width := img_width; height := img_height |}) s in
  let s := setDimensions (fun _ => {| width := 1200; height := 1200 |}) s in
  let s := setState (fun _ => ProcessingState.mk false None None None) s in
  let s := setCheckState (fun _ => CheckState.mk false None JNull) s in
  setFixOptions (fun _ => {| fix_dimensions := true; fix_background := true;
                             fix_alignment := true |}) s.

(** ** [handleDimensionChange]

    The two inputs call it with [parseInt(e.target.value) || 1], an
    integer. *)
Inductive Field : Type := Width | Height.

Definition handleDimensionChange (field : Field) (value : Z) (s : Home) : Home :=
  match originalDimensions s with
  | Some od =>
      let aspectRatio := Float64.fdiv (inject_Z (width od)) (inject_Z (height od)) in
      match field with
      | Width =>
          setDimensions (fun _ =>
            {| width := value;
               height := Float64.Math_round (Float64.fdiv (inject_Z value) aspectRatio) |}) s
      | Height =>
          setDimensions (fun _ =>
            {| width := Float64.Math_round (Float64.fmul (inject_Z value) aspectRatio);
               height := value |}) s
      end
  | None =>
      match field with
      | Width => setDimensions (fun prev => {| width := value; height := height prev |}) s
      | Height => setDimensions (fun prev => {| width := width prev; height := value |}) s
      end
  end.

(** ** [checkImage] *)

(** [n.toString()] for a status code. *)
Definition toString (n : N) : string := NilZero.string_of_uint (N.to_uint n).

(** Up to the [await fetch(...)]: the guard, the first [setCheckState] and
    the request, built from the image and dimensions of this render. *)
Definition checkImage (s : Home) : Home * list Request :=
  match originalImage s with
  | None => (s, [])
  | Some img =>
      (setCheckState (fun prev =>
         CheckState.mk true None (CheckState.results prev)) s,
       [CheckImage (file img) (width (dimensions s)) (height (dimensions s))])
  end.

(** The rest of the [try] block, once [fetch] has settled: the state it
    leaves and, if it threw, what the [catch] receives. *)
Definition checkImage_try (fetched : settled Response) (s : Home)
  : Home * option thrown :=
  match fetched with
  | Rejected e => (s, Some e)
  | Resolved response =>
      if negb (ok response) then
        match text response with
        | Rejected e => (s, Some e)
        | Resolved errorText =>
            (s, Some (ErrorObj ("Check failed: " ++ toString (status response)
                                  ++ " - " ++ errorText)))
        end
      else
        match json_body response with
        | Rejected e => (s, Some e)
        | Resolved results =>
            let s := setCheckState (fun prev =>
                       CheckState.mk false (CheckState.error prev) results) s in
            match
              (d <- get results "dimension_check" ;;
               b <- get results "background_check" ;;
               a <- get results "alignment_check" ;;
               Ok {| fix_dimensions := negb (truthy d);
                     fix_background := negb (truthy b);
                     fix_alignment := negb (truthy a) |})
            with
            | Ok fo => (setFixOptions (fun _ => fo) s, None)
            | Throw e => (s, Some e)
            end
        end
  end.

Definition checkImage_catch (err : thrown) (s : Home) : Home :=
  setCheckState (fun prev =>
    CheckState.mk false
      (Some match err with ErrorObj message => message | NotAnError => "Check failed" end)
      (CheckState.results prev)) s.

(** The continuation of [checkImage] after [await fetch(...)]. *)
Definition checkImage_settled (fetched : settled Response) (s : Home) : Home :=
  match checkImage_try fetched s with
  | (s, None) => s
  | (s, Some err) => checkImage_catch err s
  end.

(** ** [processImage] *)

(** Up to the [await fetch(...)]. *)
Definition processImage (s : Home) : Home * list Request :=
  match originalImage s with
  | None => (s, [])
  | Some img =>
      (setState (fun prev =>
         ProcessingState.mk true None
           (ProcessingState.processedImage prev)
           (ProcessingState.processedImageDimensions prev)) s,
       [ProcessImage (file img)
          (fix_dimensions (fixOptions s)) (fix_background (fixOptions s))
          (fix_alignment (fixOptions s))
          (width (dimensions s)) (height (dimensions s))])
  end.

Definition processImage_catch (err : thrown) (s : Home) : Home :=
  setState (fun prev =>
    ProcessingState.mk false
      (Some match err with ErrorObj message => message | NotAnError => "Processing failed" end)
      (ProcessingState.processedImage prev)
      (ProcessingState.processedImageDimensions prev)) s.

(** The continuation after [await fetch(...)].  With the blob in hand an
    object URL is created and given to a fresh [Image] as its [src]; the
    state is touched again only by that image's [onload] or [onerror].  The
    third component is the URL whose decoding is now pending. *)
Definition processImage_settled (fetched : settled Response) (s : Home) (b : Browser)
  : Home * Browser * option ObjectURL :=
  match fetched with
  | Rejected e => (processImage_catch e s, b, None)
  | Resolved response =>
      if negb (ok response) then
        match text response with
        | Rejected e => (processImage_catch e s, b, None)
        | Resolved errorText =>
            (processImage_catch
               (ErrorObj ("Processing failed: " ++ toString (status response)
                            ++ " - " ++ errorText)) s,
             b, None)
        end
      else
        match blob response with
        | Rejected e => (processImage_catch e s, b, None)
        | Resolved _ =>
            let (processedUrl, b) := createObjectURL b in
            (s, b, Some processedUrl)
        end
  end.

Definition processImage_img_onload (processedUrl : ObjectURL)
    (img_width img_height : Z) (s : Home) : Home :=
  setState (fun prev =>
    ProcessingState.mk false (ProcessingState.error prev)
      (Some processedUrl)
      (Some {| width := img_width; height := img_height |})) s.

Definition processImage_img_onerror (s : Home) : Home :=
  setState (fun prev =>
    ProcessingState.mk false (Some "Failed to load processed image")
      (ProcessingState.processedImage prev)
      (ProcessingState.processedImageDimensions prev)) s.

(** ** [reset] *)
Definition reset (s : Home) (b : Browser) : Home * Browser :=
  let s' := setOriginalImage None s in
  let s' := setOriginalDimensions None s' in
  let s' := setDimensions (fun _ => {| width := 1200; height := 1200 |}) s' in
  let s' := setState (fun _ => ProcessingState.mk false None None None) s' in
  let s' := setCheckState (fun _ => CheckState.mk false None JNull) s' in
  let s' := setFixOptions (fun _ => {| fix_dimensions := true; fix_background := true;
                                       fix_alignment := true |}) s' in
  match ProcessingState.processedImage (state s) with
  | Some url => (s', revokeObjectURL url b)
  | None => (s', b)
  end.

(** ** The fix check boxes and their quick actions *)
Inductive Fix : Type := FixDimensions | FixBackground | FixAlignment.

Definition onChange_fix (which : Fix) (checked : bool) (s : Home) : Home :=
  setFixOptions (fun prev =>
    match which with
    | FixDimensions => mkFixOptions checked (fix_background prev) (fix_alignment prev)
    | FixBackground => mkFixOptions (fix_dimensions prev) checked (fix_alignment prev)
    | FixAlignment => mkFixOptions (fix_dimensions prev) (fix_background prev) checked
    end) s.

Definition selectAll (s : Home) : Home :=
  setFixOptions (fun _ => mkFixOptions true true true) s.

Definition selectNone (s : Home) : Home :=
  setFixOptions (fun _ => mkFixOptions false false false) s.

Definition selectOnlyFailed (s : Home) : Home :=
  let results := CheckState.results (checkState s) in
  match
    (d <- get results "dimension_check" ;;
     b <- get results "background_check" ;;
     a <- get results "alignment_check" ;;
     Ok (mkFixOptions (negb (truthy d)) (negb (truthy b)) (negb (truthy a))))
  with
  | Ok fo => setFixOptions (fun _ => fo) s
  | Throw _ => s
  end.

(** ** The action buttons

    The buttons are rendered only while [originalImage] is set; a button
    that is not rendered or is [disabled] does not call its [onClick]. *)
Definition buttons_rendered (s : Home) : bool :=
  match originalImage s with Some _ => true | None => false end.

Definition checkButton_disabled (s : Home) : bool :=
  CheckState.isChecking (checkState s).

Definition processButton_disabled (s : Home) : bool :=
  ProcessingState.isProcessing (state s)
  || negb (truthy (Some (CheckState.results (checkState s)))).

Definition click_check (s : Home) : Home * list Request :=
  if buttons_rendered s && negb (checkButton_disabled s)
  then checkImage s else (s, []).

Definition click_process (s : Home) : Home * list Request :=
  if buttons_rendered s && negb (processButton_disabled s)
  then processImage s else (s, []).

(** ** Events

    Everything that makes the component run: user input, and the
    callbacks of the reader, the images and the two requests.  Events run to
    completion one after the other. *)
Inductive Event : Type :=
| Drop (acceptedFiles rejectedFiles : list File)
| UploadDecoded (f : File) (readerResult : string) (img_width img_height : Z)
| ChangeDimension (field : Field) (value : Z)
| ClickCheck
| CheckSettled (fetched : settled Response)
| ClickProcess
| ProcessSettled (fetched : settled Response)
| ProcessedDecoded (processedUrl : ObjectURL) (img_width img_height : Z)
| ProcessedDecodeFailed
| ChangeFix (which : Fix) (checked : bool)
| ClickSelectAll
| ClickSelectNone
| ClickOnlyFailed
| ClickReset.

Record World : Type := mkWorld {
  home : Home;
  browser : Browser;
  sent : list Request             (* every request issued so far, latest first *)
}.

Definition start : World := mkWorld initial fresh_browser [].

Definition handle (e : Event) (w : World) : World :=
  let s := home w in
  let b := browser w in
  match e with
  | Drop acc rej => mkWorld (fst (onDrop acc rej s)) b (sent w)
  | UploadDecoded f r iw ih => mkWorld (onDrop_img_onload f r iw ih s) b (sent w)
  | ChangeDimension field value => mkWorld (handleDimensionChange field value s) b (sent w)
  | ClickCheck => let (s', rs) := click_check s in mkWorld s' b (rs ++ sent w)
  | CheckSettled fetched => mkWorld (checkImage_settled fetched s) b (sent w)
  | ClickProcess => let (s', rs) := click_process s in mkWorld s' b (rs ++ sent w)
  | ProcessSettled fetched =>
      let '(s', b', _) := processImage_settled fetched s b in mkWorld s' b' (sent w)
  | ProcessedDecoded u iw ih => mkWorld (processImage_img_onload u iw ih s) b (sent w)
  | ProcessedDecodeFailed => mkWorld (processImage_img_onerror s) b (sent w)
  | ChangeFix which checked => mkWorld (onChange_fix which checked s) b (sent w)
  | ClickSelectAll => mkWorld (selectAll s) b (sent w)
  | ClickSelectNone => mkWorld (selectNone s) b (sent w)
  | ClickOnlyFailed => mkWorld (selectOnlyFailed s) b (sent w)
  | ClickReset => let (s', b') := reset s b in mkWorld s' b' (sent w)
  end.

Definition run (events : list Event) (w : World) : World :=
  fold_left (fun w e => handle e w) events w.

(** ** The specification's arithmetic, for comparison

    [round(value * num / den)] evaluated over the rationals, a tie going up:
    the formula the recomputed field is documented to follow. *)
Definition exact_round (value num den : Z) : Z :=
  Float64.Math_round (inject_Z (value * num) / inject_Z den).

(** [value * num / den] lies exactly half-way between two integers. *)
Definition half_way (value num den : Z) : Prop :=
  (2 * (value * num) + den) mod (2 * den) = 0.

(** The bound of the two number inputs ([min="1" max="5000"]). *)
Definition in_range (z : Z) : Prop := 1 <= z <= 5000.

Definition dimensions_in_range (s : Home) : Prop :=
  in_range (width (dimensions s)) /\ in_range (height (dimensions s)).

(** An edit whose value is in range and, when an image is present, whose
    ratio-scaled counterpart ([value * h / w] for an edited width,
    [value * w / h] for an edited height) is in range as well.  The natural
    size of an image is an [unsigned long]. *)
Definition edit_stays_in_range (e : Event) (s : Home) : Prop :=
  match e with
  | ChangeDimension field value =>
      in_range value
      /\ match originalDimensions s with
         | None => True
         | Some od =>
             0 < width od < 2 ^ 32 /\ 0 < height od < 2 ^ 32
             /\ match field with
                | Width => width od <= value * height od <= 5000 * width od
                | Height => height od <= value * width od <= 5000 * height od
                end
         end
  | _ => True
  end.

(** The image, its natural size and the target dimensions are the same in
    [s'] as in [s]. *)
Definition same_image_and_dimensions (s s' : Home) : Prop :=
  originalImage s' = originalImage s
  /\ originalDimensions s' = originalDimensions s
  /\ dimensions s' = dimensions s.

(** ** Sample values, used to exercise the statements below *)
Definition photo : File := mkFile "photo.png" 204800.

Definition data_url : string := "data:image/png;base64,iVBORw0KGgo=".

(** The session right after [photo] was uploaded and decoded. *)
Definition uploaded (img_width img_height : Z) : Home :=
  onDrop_img_onload photo data_url img_width img_height initial.

Definition check_body (background dimension alignment : bool) : json :=
  JObj [("background_check", JBool background);
        ("dimension_check", JBool dimension);
        ("alignment_check", JBool alignment)].

Definition ok_json (body : json) : settled Response :=
  Resolved (mkResponse 200 (Resolved "") (Resolved body) (Resolved "")).

Definition ok_blob : settled Response :=
  Resolved (mkResponse 200 (Resolved "JFIF")
                       (Rejected (ErrorObj "Unexpected token J in JSON"))
                       (Resolved "JFIF")).

Definition server_error : settled Response :=
  Resolved (mkResponse 500 (Resolved "server error")
                       (Rejected (ErrorObj "Unexpected token s in JSON"))
                       (Resolved "server error")).

(** A session with a stored check result. *)
Definition checked (img_width img_height : Z) : Home :=
  checkImage_settled (ok_json (check_body false true false))
    (fst (checkImage (uploaded img_width img_height))).

(** A session in which the image is checked and then processed twice, each
    time with success: the second artifact replaces the first. *)
Definition processed_twice : list Event :=
  [Drop [photo] [];
   UploadDecoded photo data_url 800 600;
   ClickCheck;
   CheckSettled (ok_json (check_body false true false));
   ClickProcess;
   ProcessSettled ok_blob;
   ProcessedDecoded 0%nat 1200 1200;
   ClickProcess;
   ProcessSettled ok_blob;
   ProcessedDecoded 1%nat 1200 1200].

(** The ways a check fails before a body has been parsed: [fetch] rejects,
    the status is not a success, or the body is not JSON. *)
Definition check_fails_unparsed (fetched : settled Response) : bool :=
  match fetched with
  | Rejected _ => true
  | Resolved response =>
      negb (ok response)
      || match json_body response with Rejected _ => true | Resolved _ => false end
  end.

(** The ways the processing request fails: [fetch] rejects, the status is
    not a success, or the body cannot be read. *)
Definition process_request_fails (fetched : settled Response) : bool :=
  match fetched with
  | Rejected _ => true
  | Resolved response =>
      negb (ok response)
      || match blob response with Rejected _ => true | Resolved _ => false end
  end.

(** ** The [CheckResults] panel *)

(** Truthiness of a [string | null] such as the two [error] fields. *)
Definition shown (message : option string) : bool :=
  match message with
  | Some m => negb (String.eqb m "")
  | None => false
  end.

(** The panel renders unless there is no result, no error and no check in
    flight. *)
Definition CheckResults_rendered (s : Home) : bool :=
  negb (negb (truthy (Some (CheckState.results (checkState s))))
        && negb (shown (CheckState.error (checkState s)))
        && negb (CheckState.isChecking (checkState s))).

(** [a && b]: the first operand when it is falsy, the second otherwise. *)
Definition js_and (a b : option json) : option json :=
  if truthy a then b else a.

(** A member picked by destructuring a value that is not [null]. *)
Definition member (v : json) (key : string) : option json :=
  match v with
  | JObj fields => lookup key fields
  | _ => None
  end.

(** [getOverallStatus]: [null] without a result, else the conjunction of
    the three checks. *)
Definition getOverallStatus (s : Home) : option json :=
  let results := CheckState.results (checkState s) in
  if negb (truthy (Some results)) then Some JNull
  else js_and (js_and (member results "background_check")
                      (member results "dimension_check"))
              (member results "alignment_check").

(** [Object.values(fixOptions).filter(Boolean).length]. *)
Definition selectedCount (s : Home) : nat :=
  List.length (filter (fun b : bool => b)
            [fix_dimensions (fixOptions s); fix_background (fixOptions s);
             fix_alignment (fixOptions s)]).

(** ** The processed panel and the download *)

(** What the right-hand panel shows: the processed image if there is one,
    else the error if there is one, else a placeholder. *)
Inductive ProcessedPanel : Type :=
| PanelImage (src : ObjectURL)
| PanelError (message : string)
| PanelPlaceholder (caption : string).

Definition processedPanel (s : Home) : ProcessedPanel :=
  match ProcessingState.processedImage (state s) with
  | Some src => PanelImage src
  | None =>
      match ProcessingState.error (state s) with
      | Some message =>
          if shown (Some message) then PanelError message
          else PanelPlaceholder
                 (if ProcessingState.isProcessing (state s)
                  then "Processing..." else "Waiting for processing")
      | None =>
          PanelPlaceholder
            (if ProcessingState.isProcessing (state s)
             then "Processing..." else "Waiting for processing")
      end
  end.

(** No character of [rest] is a slash or a dot. *)
Fixpoint no_slash_or_dot (rest : string) : bool :=
  match rest with
  | EmptyString => true
  | String c rest' =>
      negb (Ascii.eqb c "/"%char) && negb (Ascii.eqb c "."%char)
      && no_slash_or_dot rest'
  end.

(** [name.replace(/\.[^/.]+$/, '')]: the leftmost place where a dot is
    followed, up to the end, by one or more characters that are neither a
    slash nor a dot is where the name is cut.  Both characters are ASCII, so
    cutting the bytes of a name cuts its characters. *)
Fixpoint strip_extension (name : string) : string :=
  match name with
  | EmptyString => EmptyString
  | String c rest =>
      if Ascii.eqb c "."%char
         && negb (String.eqb rest "") && no_slash_or_dot rest
      then EmptyString
      else String c (strip_extension rest)
  end.

(** An integer in a template string: its decimal digits (numbers of
    magnitude 10^21 and above print with an exponent and are not covered). *)
Definition Number_toString (z : Z) : string :=
  if (z <? 0)%Z then "-" ++ toString (Z.to_N (- z)%Z) else toString (Z.to_N z).

(** [downloadImage]: with a processed image and an original image, the link
    that is clicked, as its [href] and [download] name; else nothing. *)
Definition downloadImage (s : Home) : option (ObjectURL * string) :=
  match ProcessingState.processedImage (state s), originalImage s with
  | Some href, Some img =>
      Some (href,
            "processed_" ++ strip_extension (name (file img)) ++ "_"
              ++ Number_toString (width (dimensions s)) ++ "x"
              ++ Number_toString (height (dimensions s)) ++ ".jpg")
  | _, _ => None
  end.

(** ** Outcomes and events, classified *)

(** A check response the handler takes as a result: a success status and a
    JSON body other than [null]. *)
Definition check_succeeds (fetched : settled Response) : bool :=
  match fetched with
  | Rejected _ => false
  | Resolved response =>
      ok response
      && match json_body response with
         | Resolved JNull => false
         | Resolved _ => true
         | Rejected _ => false
         end
  end.

(** An event that stores a truthy check result. *)
Definition stores_check_result (e : Event) : bool :=
  match e with
  | CheckSettled (Resolved response) =>
      ok response
      && match json_body response with
         | Resolved body => truthy (Some body)
         | Rejected _ => false
         end
  | _ => false
  end.

(** An event that creates an object URL: a processing response with a
    success status and a readable body. *)
Definition creates_url (e : Event) : bool :=
  match e with
  | ProcessSettled fetched => negb (process_request_fails fetched)
  | _ => false
  end.

Definition is_reset (e : Event) : bool :=
  match e with
  | ClickReset => true
  | _ => false
  end.

Definition is_process_request (r : Request) : bool :=
  match r with
  | ProcessImage _ _ _ _ _ _ => true
  | CheckImage _ _ _ => false
  end.

(** The registry is well kept: live URLs are distinct, were all handed out,
    and every URL handed out is still live or was passed to a revocation. *)
Definition registry_ok (b : Browser) : Prop :=
  NoDup (live b)
  /\ (forall u, In u (live b) -> (u < created b)%nat)
  /\ (created b <= List.length (live b) + List.length (revoked b))%nat.

(** * Rounding: how far [round64] is from the exact value *)
Module Float64Facts.
Import Float64.
Local Open Scope Q_scope.

(** Known values: 0.1 and 1/3 as doubles, a tie that goes to the even
    significand, and [Math.round] at halves. *)
Example fdiv_one_tenth : fdiv 1 10 = 3602879701896397 # 36028797018963968.
Proof. vm_compute. reflexivity. Qed.

Example fdiv_one_third : fdiv 1 3 = 6004799503160661 # 18014398509481984.
Proof. vm_compute. reflexivity. Qed.

Example round64_tie_to_even :
  round64 9007199254740993 = 9007199254740992
  /\ round64 9007199254740995 = 9007199254740996.
Proof. split; vm_compute; reflexivity. Qed.

Example Math_round_halves :
  Math_round (1 # 2) = 1%Z /\ Math_round (5 # 2) = 3%Z
  /\ Math_round (- (1 # 2)) = 0%Z /\ Math_round (- (5 # 2)) = (-2)%Z.
Proof. repeat split. Qed.

Lemma pow2_pos (e : Z) : 0 < 2 ^ e.
Proof. apply Qpower_0_lt. reflexivity. Qed.

Lemma pow2_add (a b : Z) : 2 ^ (a + b) == 2 ^ a * 2 ^ b.
Proof. apply Qpower_plus. discriminate. Qed.

Lemma pow2_inject (n : Z) : (0 <= n)%Z -> inject_Z (2 ^ n) == 2 ^ n.
Proof. intros H. apply (Zpower_Qpower 2 n H). Qed.

Lemma Qabs_num_den (x : Q) :
  Qabs x * inject_Z (Zpos (Qden x)) == inject_Z (Z.abs (Qnum x)).
Proof.
  destruct x as [n d]. unfold Qabs, Qeq, Qmult, inject_Z. simpl. lia.
Qed.

(** The exponent chosen by [ilog2] is not above the number. *)
Lemma ilog2_le (x : Q) : ~ x == 0 -> 2 ^ (ilog2 x) <= Qabs x.
Proof.
  intros Hx. unfold ilog2.
  set (n := Z.abs (Qnum x)). set (d := Zpos (Qden x)).
  set (k := (Z.log2 n - Z.log2 d)%Z).
  destruct (Qle_bool (2 ^ k) (Qabs x)) eqn:E.
  - now apply Qle_bool_iff.
  - assert (Hn : (0 < n)%Z).
    { subst n. destruct x as [[|p|p] q]; simpl; try lia.
      exfalso. apply Hx. reflexivity. }
    assert (Hd : (0 < d)%Z) by (subst d; lia).
    pose proof (Z.log2_spec n Hn) as [Hn1 _].
    pose proof (Z.log2_spec d Hd) as [_ Hd2].
    pose proof (Z.log2_nonneg n) as Ln. pose proof (Z.log2_nonneg d) as Ld.
    assert (Hq := Qabs_num_den x). fold n d in Hq.
    assert (P1 := pow2_inject (Z.log2 n) Ln).
    assert (P2 := pow2_inject (Z.succ (Z.log2 d)) ltac:(lia)).
    assert (Hk : 2 ^ (Z.log2 n) == 2 ^ (k - 1) * 2 ^ (Z.succ (Z.log2 d))).
    { rewrite <- pow2_add. subst k.
      replace (Z.log2 n - Z.log2 d - 1 + Z.succ (Z.log2 d))%Z with (Z.log2 n) by lia.
      reflexivity. }
    assert (Q1 : inject_Z (2 ^ Z.log2 n) <= inject_Z n)
      by (rewrite <- Zle_Qle; exact Hn1).
    assert (Q2 : inject_Z d < inject_Z (2 ^ Z.succ (Z.log2 d)))
      by (rewrite <- Zlt_Qlt; exact Hd2).
    assert (Q3 : 0 < inject_Z d) by (rewrite (Zlt_Qlt 0 d) in Hd; exact Hd).
    pose proof (pow2_pos (k - 1)) as Pk.
    rewrite P1 in Q1. rewrite P2 in Q2.
    set (A := 2 ^ (k - 1)) in *. set (B := 2 ^ Z.succ (Z.log2 d)) in *.
    set (C := 2 ^ Z.log2 n) in *. set (X := Qabs x) in *.
    set (D := inject_Z d) in *. set (N := inject_Z n) in *.
    nra.
Qed.

(** ... and the next power of two is above it. *)
Lemma ilog2_lt (x : Q) : ~ x == 0 -> Qabs x < 2 ^ (ilog2 x + 1).
Proof.
  intros Hx. unfold ilog2.
  set (n := Z.abs (Qnum x)). set (d := Zpos (Qden x)).
  set (k := (Z.log2 n - Z.log2 d)%Z).
  destruct (Qle_bool (2 ^ k) (Qabs x)) eqn:E.
  - assert (Hn : (0 < n)%Z).
    { subst n. destruct x as [[|p|p] q]; simpl; try lia.
      exfalso. apply Hx. reflexivity. }
    assert (Hd : (0 < d)%Z) by (subst d; lia).
    pose proof (Z.log2_spec n Hn) as [_ Hn2].
    pose proof (Z.log2_spec d Hd) as [Hd1 _].
    pose proof (Z.log2_nonneg n) as Ln. pose proof (Z.log2_nonneg d) as Ld.
    assert (Hq := Qabs_num_den x). fold n d in Hq.
    assert (P1 := pow2_inject (Z.succ (Z.log2 n)) ltac:(lia)).
    assert (P2 := pow2_inject (Z.log2 d) Ld).
    assert (Hk : 2 ^ (Z.succ (Z.log2 n)) == 2 ^ (k + 1) * 2 ^ (Z.log2 d)).
    { rewrite <- pow2_add. subst k.
      replace (Z.log2 n - Z.log2 d + 1 + Z.log2 d)%Z with (Z.succ (Z.log2 n)) by lia.
      reflexivity. }
    assert (Q1 : inject_Z n < inject_Z (2 ^ Z.succ (Z.log2 n)))
      by (rewrite <- Zlt_Qlt; exact Hn2).
    assert (Q2 : inject_Z (2 ^ Z.log2 d) <= inject_Z d)
      by (rewrite <- Zle_Qle; exact Hd1).
    pose proof (pow2_pos (k + 1)) as Pk.
    rewrite P1 in Q1. rewrite P2 in Q2.
    set (A := 2 ^ (k + 1)) in *. set (B := 2 ^ Z.log2 d) in *.
    set (C := 2 ^ Z.succ (Z.log2 n)) in *. set (X := Qabs x) in *.
    set (D := inject_Z d) in *. set (N := inject_Z n) in *.
    assert (M : 0 <= A * (D - B)) by (apply Qmult_le_0_compat; lra).
    apply Qnot_le_lt. intros Ge.
    assert (Q3 : 0 <= D) by (subst D; change 0 with (inject_Z 0); rewrite <- Zle_Qle; lia).
    assert (M2 : 0 <= (X - A) * D) by (apply Qmult_le_0_compat; lra).
    lra.
  - replace (k - 1 + 1)%Z with k by lia.
    apply Qnot_le_lt. intros C. apply Qle_bool_iff in C. congruence.
Qed.

(** Scaled by the exponent [round64] picks, a positive number has a 53-bit
    integer part: the rounding keeps 53 significant bits, no more. *)
Lemma round64_significand (x : Q) :
  0 < x ->
  4503599627370496 <= x / 2 ^ (ilog2 x - 52)
  /\ x / 2 ^ (ilog2 x - 52) < 9007199254740992.
Proof.
  intros Hx. assert (Hnz : ~ x == 0) by lra.
  pose proof (ilog2_le x Hnz) as L. pose proof (ilog2_lt x Hnz) as U.
  rewrite (Qabs_pos x) in L, U by lra.
  set (e := (ilog2 x - 52)%Z).
  assert (E1 : 2 ^ ilog2 x == 4503599627370496 * 2 ^ e).
  { change 4503599627370496 with (2 ^ 52). rewrite <- pow2_add. subst e.
    replace (52 + (ilog2 x - 52))%Z with (ilog2 x) by lia. reflexivity. }
  assert (E2 : 2 ^ (ilog2 x + 1) == 9007199254740992 * 2 ^ e).
  { change 9007199254740992 with (2 ^ 53). rewrite <- pow2_add. subst e.
    replace (53 + (ilog2 x - 52))%Z with (ilog2 x + 1)%Z by lia. reflexivity. }
  rewrite E1 in L. rewrite E2 in U.
  pose proof (pow2_pos e) as Pe.
  split.
  - apply Qle_shift_div_l; [exact Pe | exact L].
  - apply Qlt_shift_div_r; [exact Pe | exact U].
Qed.

Lemma rne_err (x : Q) :
  x - (1 # 2) <= inject_Z (rne x) <= x + (1 # 2).
Proof.
  unfold rne. pose proof (Qfloor_le x) as H1. pose proof (Qlt_floor x) as H2.
  rewrite inject_Z_plus in H2. change (inject_Z 1) with 1 in H2.
  set (f := Qfloor x) in *.
  assert (I1 : inject_Z (f + 1) == inject_Z f + 1)
    by (rewrite inject_Z_plus; reflexivity).
  destruct (Qcompare (x - inject_Z f) (1 # 2)) eqn:E.
  - apply Qeq_alt in E. destruct (Z.even f); rewrite ?I1; split; lra.
  - apply Qlt_alt in E. split; lra.
  - apply Qgt_alt in E. rewrite I1. split; lra.
Qed.

(** One rounding moves a positive number by at most the factor [1 +- u]. *)
Lemma round64_err (x : Q) :
  0 < x -> (1 - u) * x <= round64 x <= (1 + u) * x.
Proof.
  intros Hx. unfold round64.
  destruct (Qeq_bool x 0) eqn:E.
  - apply Qeq_bool_iff in E. lra.
  - rewrite Qred_correct.
    assert (Hnz : ~ x == 0) by lra.
    pose proof (ilog2_le x Hnz) as Hl. rewrite (Qabs_pos x) in Hl by lra.
    set (e := (ilog2 x - 52)%Z) in *.
    assert (He : 2 ^ ilog2 x == 2 ^ 52 * 2 ^ e).
    { rewrite <- pow2_add. subst e.
      replace (52 + (ilog2 x - 52))%Z with (ilog2 x) by lia. reflexivity. }
    rewrite He in Hl.
    pose proof (pow2_pos e) as Pe.
    pose proof (rne_err (x / 2 ^ e)) as [R1 R2].
    set (m := inject_Z (rne (x / 2 ^ e))) in *.
    assert (Hd : x / 2 ^ e * 2 ^ e == x) by (field; lra).
    set (t := x / 2 ^ e) in *. set (p := 2 ^ e) in *.
    assert (H52 : 2 ^ 52 == 4503599627370496) by reflexivity.
    rewrite H52 in Hl. unfold u.
    assert (M1 : 0 <= (m - t + (1 # 2)) * p) by (apply Qmult_le_0_compat; lra).
    assert (M2 : 0 <= (t + (1 # 2) - m) * p) by (apply Qmult_le_0_compat; lra).
    split; lra.
Qed.

Lemma round64_pos (x : Q) : 0 < x -> 0 < round64 x.
Proof.
  intros Hx. pose proof (round64_err x Hx) as [H _]. unfold u in H.
  nra.
Qed.

(** Two roundings, the quotient by a quotient: [v / (w / h)]. *)
Lemma fdiv_fdiv_close (v w h : Q) :
  0 < v -> 0 < w -> 0 < h -> v * h <= 1125899906842624 ->
  let y := fdiv v (fdiv w h) in
  v * h - (1 # 2) < y * w /\ y * w < v * h + (1 # 2).
Proof.
  intros Hv Hw Hh Hb y. subst y. unfold fdiv.
  assert (HR : 0 < w / h) by (apply Qlt_shift_div_l; lra).
  pose proof (round64_err (w / h) HR) as [A1 A2].
  pose proof (round64_pos (w / h) HR) as Ap.
  set (a := round64 (w / h)) in *.
  assert (Hq : 0 < v / a) by (apply Qlt_shift_div_l; lra).
  pose proof (round64_err (v / a) Hq) as [Y1 Y2].
  set (y := round64 (v / a)) in *.
  assert (Eq1 : v / a * a == v) by (field; lra).
  assert (Eq2 : w / h * h == w) by (field; lra).
  set (q := v / a) in *. set (R := w / h) in *.
  unfold u in *.
  assert (F1 : (1 - (1 # 9007199254740992)) * (q * R) <= v) by nra.
  assert (F2 : v <= (1 + (1 # 9007199254740992)) * (q * R)) by nra.
  assert (T1 : y * R <= (1 + (1 # 9007199254740992)) * (q * R)) by nra.
  assert (T2 : (1 - (1 # 9007199254740992)) * (q * R) <= y * R) by nra.
  assert (W : y * w == y * R * h) by (rewrite <- Eq2; ring).
  rewrite W.
  set (S := q * R) in *. set (T := y * R) in *.
  assert (P1 : (1 - (1 # 9007199254740992)) * (S * h) <= v * h) by nra.
  assert (P2 : v * h <= (1 + (1 # 9007199254740992)) * (S * h)) by nra.
  assert (P3 : T * h <= (1 + (1 # 9007199254740992)) * (S * h)) by nra.
  assert (P4 : (1 - (1 # 9007199254740992)) * (S * h) <= T * h) by nra.
  set (N := v * h) in *. set (P := S * h) in *. set (Wd := T * h) in *.
  split; lra.
Qed.

(** Two roundings, the product with a quotient: [v * (w / h)]. *)
Lemma fmul_fdiv_close (v w h : Q) :
  0 < v -> 0 < w -> 0 < h -> v * w <= 1125899906842624 ->
  let y := fmul v (fdiv w h) in
  v * w - (1 # 2) < y * h /\ y * h < v * w + (1 # 2).
Proof.
  intros Hv Hw Hh Hb y. subst y. unfold fmul, fdiv.
  assert (HR : 0 < w / h) by (apply Qlt_shift_div_l; lra).
  pose proof (round64_err (w / h) HR) as [A1 A2].
  pose proof (round64_pos (w / h) HR) as Ap.
  set (a := round64 (w / h)) in *.
  assert (Hq : 0 < v * a) by nra.
  pose proof (round64_err (v * a) Hq) as [Y1 Y2].
  set (y := round64 (v * a)) in *.
  assert (Eq2 : w / h * h == w) by (field; lra).
  set (R := w / h) in *. unfold u in *.
  assert (B1 : (1 - (1 # 9007199254740992)) * (v * R) <= v * a) by nra.
  assert (B2 : v * a <= (1 + (1 # 9007199254740992)) * (v * R)) by nra.
  set (p := v * a) in *. set (S := v * R) in *.
  assert (C1 : (1 - (1 # 9007199254740992)) * (p * h) <= y * h) by nra.
  assert (C2 : y * h <= (1 + (1 # 9007199254740992)) * (p * h)) by nra.
  assert (D1 : (1 - (1 # 9007199254740992)) * (S * h) <= p * h) by nra.
  assert (D2 : p * h <= (1 + (1 # 9007199254740992)) * (S * h)) by nra.
  assert (E : S * h == v * w) by (subst S; rewrite <- Eq2; ring).
  set (Y := y * h) in *. set (PH := p * h) in *. set (SH := S * h) in *.
  set (N := v * w) in *.
  split; nra.
Qed.

Lemma inject_Z_pred (r : Z) : inject_Z (r - 1) == inject_Z r - 1.
Proof. unfold Qeq, Qminus, Qplus, Qopp, inject_Z. simpl. lia. Qed.

Lemma Qfloor_eq (z : Q) (r : Z) :
  inject_Z r <= z -> z < inject_Z r + 1 -> Qfloor z = r.
Proof.
  intros H1 H2.
  pose proof (Qfloor_le z) as F1. pose proof (Qlt_floor z) as F2.
  rewrite inject_Z_plus in F2. change (inject_Z 1) with 1 in F2.
  assert (A : (Qfloor z < r + 1)%Z).
  { rewrite Zlt_Qlt, inject_Z_plus. change (inject_Z 1) with 1. lra. }
  assert (B : (r < Qfloor z + 1)%Z).
  { rewrite Zlt_Qlt, inject_Z_plus. change (inject_Z 1) with 1. lra. }
  lia.
Qed.

(** [Math.round] of a number [y] whose product with [D] is within a half of
    the integer [N]: the rounding of [N / D], unless [N / D] is half-way
    between two integers, where it may also be the lower of the two. *)
Lemma Math_round_close (y : Q) (N D : Z) :
  (0 < D)%Z ->
  inject_Z N - (1 # 2) < y * inject_Z D ->
  y * inject_Z D < inject_Z N + (1 # 2) ->
  (((2 * N + D) mod (2 * D) <> 0)%Z ->
     Math_round y = ((2 * N + D) / (2 * D))%Z)
  /\ (Math_round y = ((2 * N + D) / (2 * D))%Z
      \/ (((2 * N + D) mod (2 * D) = 0)%Z
          /\ Math_round y = ((2 * N + D) / (2 * D) - 1)%Z)).
Proof.
  intros HD L U.
  pose proof (Z.div_mod (2 * N + D) (2 * D) ltac:(lia)) as E.
  pose proof (Z.mod_pos_bound (2 * N + D) (2 * D) ltac:(lia)) as [M0 M1].
  set (r := ((2 * N + D) / (2 * D))%Z) in *.
  set (f := ((2 * N + D) mod (2 * D))%Z) in *.
  assert (EQ : 2 * inject_Z N + inject_Z D
               == 2 * inject_Z D * inject_Z r + inject_Z f).
  { change 2 with (inject_Z 2). rewrite <- !inject_Z_mult, <- !inject_Z_plus.
    rewrite E. reflexivity. }
  assert (Dq : 1 <= inject_Z D)
    by (change 1 with (inject_Z 1); rewrite <- Zle_Qle; lia).
  assert (F0 : 0 <= inject_Z f)
    by (change 0 with (inject_Z 0); rewrite <- Zle_Qle; lia).
  assert (F1 : inject_Z f + 1 <= 2 * inject_Z D).
  { change 1 with (inject_Z 1). change 2 with (inject_Z 2).
    rewrite <- inject_Z_mult, <- inject_Z_plus, <- Zle_Qle. lia. }
  unfold Math_round.
  set (d := inject_Z D) in *. set (n := inject_Z N) in *.
  set (rq := inject_Z r) in *. set (fq := inject_Z f) in *.
  assert (Up : y + (1 # 2) < rq + 1).
  { apply Qnot_le_lt. intros C.
    assert (0 <= (y + (1 # 2) - (rq + 1)) * d) by (apply Qmult_le_0_compat; lra).
    nra. }
  assert (Tie : f = 0%Z -> rq - 1 <= y + (1 # 2)).
  { intros Z0. assert (fq == 0) by (subst fq; rewrite Z0; reflexivity).
    apply Qnot_lt_le. intros C.
    assert (0 <= (rq - 1 - (y + (1 # 2))) * d) by (apply Qmult_le_0_compat; lra).
    nra. }
  assert (NoTie : f <> 0%Z -> rq <= y + (1 # 2)).
  { intros Z0. assert (1 <= fq).
    { subst fq. change 1 with (inject_Z 1). rewrite <- Zle_Qle. lia. }
    apply Qnot_lt_le. intros C.
    assert (0 <= (rq - (y + (1 # 2))) * d) by (apply Qmult_le_0_compat; lra).
    nra. }
  split.
  - intros Hf. apply Qfloor_eq; [apply NoTie; exact Hf | exact Up].
  - destruct (Z.eq_dec f 0) as [Z0|Z0].
    + destruct (Qlt_le_dec (y + (1 # 2)) rq) as [Lo|Hi].
      * right. split; [exact Z0|]. apply Qfloor_eq.
        -- rewrite inject_Z_pred. fold rq. specialize (Tie Z0). lra.
        -- rewrite inject_Z_pred. fold rq. lra.
      * left. apply Qfloor_eq; [exact Hi | exact Up].
    + left. apply Qfloor_eq; [apply NoTie; exact Z0 | exact Up].
Qed.

(** [Math.round] of an exact quotient of integers, by integer division. *)
Lemma Math_round_quotient (N D : Z) :
  (0 < D)%Z ->
  Math_round (inject_Z N / inject_Z D) = ((2 * N + D) / (2 * D))%Z.
Proof.
  intros HD. unfold Math_round. rewrite Zdiv_Qdiv.
  apply Qfloor_comp.
  assert (Dq : 0 < inject_Z D)
    by (change 0 with (inject_Z 0); rewrite <- Zlt_Qlt; lia).
  rewrite inject_Z_plus, !inject_Z_mult. change (inject_Z 2) with 2.
  field. lra.
Qed.

End Float64Facts.

(** * The workflow *)

(** ** The scenarios of the specification *)

(** A 2000 x 1000 image starts at 1200 x 1200; editing the width to 800
    makes the height 400. *)
Example scenario_edit_width :
  dimensions (uploaded 2000 1000) = {| width := 1200; height := 1200 |}
  /\ dimensions (handleDimensionChange Width 800 (uploaded 2000 1000))
     = {| width := 800; height := 400 |}.
Proof. split; vm_compute; reflexivity. Qed.

(** A check that fails background and alignment selects exactly these two
    fixes. *)
Example scenario_check_selects_failed :
  fixOptions (checked 800 600)
  = {| fix_dimensions := false; fix_background := true; fix_alignment := true |}.
Proof. reflexivity. Qed.

(** A processing request answered with status 500 and the body
    "server error": the message holds the body, the artifact stays. *)
Example scenario_server_error :
  let w := run (processed_twice ++ [ClickProcess; ProcessSettled server_error]) start in
  ProcessingState.error (state (home w)) = Some "Processing failed: 500 - server error"
  /\ ProcessingState.processedImage (state (home w)) = Some 1%nat
  /\ ProcessingState.processedImageDimensions (state (home w))
     = Some {| width := 1200; height := 1200 |}
  /\ ProcessingState.isProcessing (state (home w)) = false.
Proof. repeat split. Qed.

(** ** Guards of the two remote operations *)

(** Without an image both handlers stop at their first line. *)
Lemma checkImage_no_image (s : Home) :
  originalImage s = None -> checkImage s = (s, []).
Proof. intros H. unfold checkImage. now rewrite H. Qed.

Lemma processImage_no_image (s : Home) :
  originalImage s = None -> processImage s = (s, []).
Proof. intros H. unfold processImage. now rewrite H. Qed.

(** With an image both handlers send their request, whatever else the
    state holds. *)
Lemma checkImage_sends (s : Home) (img : OriginalImage) :
  originalImage s = Some img ->
  snd (checkImage s)
  = [CheckImage (file img) (width (dimensions s)) (height (dimensions s))].
Proof. intros H. unfold checkImage. now rewrite H. Qed.

Lemma processImage_sends (s : Home) (img : OriginalImage) :
  originalImage s = Some img ->
  snd (processImage s)
  = [ProcessImage (file img)
       (fix_dimensions (fixOptions s)) (fix_background (fixOptions s))
       (fix_alignment (fixOptions s))
       (width (dimensions s)) (height (dimensions s))].
Proof. intros H. unfold processImage. now rewrite H. Qed.

(** A click on a disabled button changes nothing and sends nothing. *)
Lemma click_check_disabled (s : Home) :
  checkButton_disabled s = true -> click_check s = (s, []).
Proof.
  intros H. unfold click_check. rewrite H.
  now rewrite andb_false_r.
Qed.

Lemma click_process_disabled (s : Home) :
  processButton_disabled s = true -> click_process s = (s, []).
Proof.
  intros H. unfold click_process. rewrite H.
  now rewrite andb_false_r.
Qed.

(** C1, as the claim states it, fails: right after an upload no check result
    exists, yet [processImage] sends the processing request. *)
Lemma C1_processImage_sends_without_check :
  CheckState.results (checkState (uploaded 800 600)) = JNull
  /\ snd (processImage (uploaded 800 600))
     = [ProcessImage photo true true true 1200 1200]
  /\ snd (processImage (uploaded 800 600)) <> [].
Proof. repeat split. discriminate. Qed.

(** C1, amended: in every state without a check result the Process button is
    disabled, so a click on it changes nothing and issues no request,
    whether or not an image is present.  That is the only guard: the handler
    [processImage] does not look at the check result, and with an image
    present it issues its request. *)
Theorem C1_process_is_gated_by_its_button (s : Home) :
  CheckState.results (checkState s) = JNull ->
  processButton_disabled s = true
  /\ click_process s = (s, [])
  /\ (forall b rs, handle ClickProcess (mkWorld s b rs) = mkWorld s b rs)
  /\ (forall img, originalImage s = Some img ->
        snd (processImage s)
        = [ProcessImage (file img)
             (fix_dimensions (fixOptions s)) (fix_background (fixOptions s))
             (fix_alignment (fixOptions s))
             (width (dimensions s)) (height (dimensions s))]).
Proof.
  intros H.
  assert (D : processButton_disabled s = true).
  { unfold processButton_disabled. rewrite H. simpl. apply orb_true_r. }
  pose proof (click_process_disabled s D) as C.
  split; [exact D|]. split; [exact C|]. split.
  - intros b rs. cbn [handle home browser sent]. now rewrite C.
  - intros img Himg. now apply processImage_sends.
Qed.

Lemma C1_process_is_gated_by_its_button_witness :
  CheckState.results (checkState (uploaded 800 600)) = JNull
  /\ click_process (uploaded 800 600) = (uploaded 800 600, []).
Proof.
  split; [reflexivity|].
  apply (C1_process_is_gated_by_its_button (uploaded 800 600)). reflexivity.
Defined.

(** ** A successful check *)

(** C2: when the check request comes back with a success status and a body
    holding the three booleans, the fix options become their pointwise
    negation, whatever they were before, and the body is stored as the
    check result. *)
Theorem C2_check_success_sets_fixOptions
    (s : Home) (response : Response) (fields : list (string * json))
    (background_check dimension_check alignment_check : bool) :
  ok response = true ->
  json_body response = Resolved (JObj fields) ->
  lookup "background_check" fields = Some (JBool background_check) ->
  lookup "dimension_check" fields = Some (JBool dimension_check) ->
  lookup "alignment_check" fields = Some (JBool alignment_check) ->
  let s' := checkImage_settled (Resolved response) s in
  fixOptions s' = {| fix_dimensions := negb dimension_check;
                     fix_background := negb background_check;
                     fix_alignment := negb alignment_check |}
  /\ CheckState.results (checkState s') = JObj fields
  /\ CheckState.isChecking (checkState s') = false.
Proof.
  intros Hok Hj Hb Hd Ha s'. subst s'.
  unfold checkImage_settled, checkImage_try.
  rewrite Hok, Hj. simpl. rewrite Hb, Hd, Ha. simpl.
  repeat split.
Qed.

Lemma C2_check_success_sets_fixOptions_witness :
  lookup "dimension_check"
    [("background_check", JBool false); ("dimension_check", JBool true);
     ("alignment_check", JBool false)] = Some (JBool true)
  /\ fixOptions (checkImage_settled (ok_json (check_body false true false))
                   (selectNone (uploaded 800 600)))
     = {| fix_dimensions := false; fix_background := true; fix_alignment := true |}.
Proof.
  split; [reflexivity|].
  apply (C2_check_success_sets_fixOptions
           (selectNone (uploaded 800 600))
           (mkResponse 200 (Resolved "") (Resolved (check_body false true false))
                       (Resolved ""))
           [("background_check", JBool false); ("dimension_check", JBool true);
            ("alignment_check", JBool false)]
           false true false); reflexivity.
Defined.

(** ** Upload *)

(** C5: whatever the state was, once an uploaded file has been read and
    decoded the check result, the processed image and its dimensions are
    null, both errors are cleared, every fix option is selected and the
    target dimensions are 1200 x 1200. *)
Theorem C5_upload_starts_a_fresh_session
    (s : Home) (f : File) (readerResult : string) (img_width img_height : Z) :
  let s' := onDrop_img_onload f readerResult img_width img_height s in
  CheckState.results (checkState s') = JNull
  /\ ProcessingState.processedImage (state s') = None
  /\ ProcessingState.processedImageDimensions (state s') = None
  /\ CheckState.error (checkState s') = None
  /\ ProcessingState.error (state s') = None
  /\ fixOptions s' = {| fix_dimensions := true; fix_background := true;
                        fix_alignment := true |}
  /\ dimensions s' = {| width := 1200; height := 1200 |}
  /\ originalImage s' = Some {| file := f; preview := readerResult |}
  /\ originalDimensions s' = Some {| width := img_width; height := img_height |}.
Proof. repeat split. Qed.

(** ** Calls while a request is in flight *)

(** C7, as the claim states it, fails: with a check in flight [checkImage]
    sends a second request, and so does [processImage] with a processing
    request in flight. *)
Lemma C7_handlers_send_while_in_flight :
  let checking := fst (checkImage (uploaded 800 600)) in
  let processing := fst (processImage (checked 800 600)) in
  CheckState.isChecking (checkState checking) = true
  /\ snd (checkImage checking) = [CheckImage photo 1200 1200]
  /\ snd (checkImage checking) <> []
  /\ ProcessingState.isProcessing (state processing) = true
  /\ snd (processImage processing) = [ProcessImage photo false true true 1200 1200]
  /\ snd (processImage processing) <> [].
Proof. repeat split; discriminate. Qed.

(** C7, amended: while [isChecking] is set the Check button is disabled,
    and while [isProcessing] is set the Process button is; a click on the
    disabled button changes nothing and issues no request, and nothing is
    queued for later.  The handlers themselves do not test these flags. *)
Theorem C7_buttons_suppress_repeated_calls (s : Home) :
  (CheckState.isChecking (checkState s) = true ->
     click_check s = (s, [])
     /\ forall b rs, handle ClickCheck (mkWorld s b rs) = mkWorld s b rs)
  /\ (ProcessingState.isProcessing (state s) = true ->
        click_process s = (s, [])
        /\ forall b rs, handle ClickProcess (mkWorld s b rs) = mkWorld s b rs).
Proof.
  split; intros H.
  - assert (C : click_check s = (s, [])) by (apply click_check_disabled; exact H).
    split; [exact C|]. intros b rs. cbn [handle home browser sent]. now rewrite C.
  - assert (C : click_process s = (s, [])).
    { apply click_process_disabled. unfold processButton_disabled. now rewrite H. }
    split; [exact C|]. intros b rs. cbn [handle home browser sent]. now rewrite C.
Qed.

Lemma C7_buttons_suppress_repeated_calls_witness :
  let checking := fst (checkImage (uploaded 800 600)) in
  let processing := fst (processImage (checked 800 600)) in
  (CheckState.isChecking (checkState checking) = true
   /\ click_check checking = (checking, []))
  /\ (ProcessingState.isProcessing (state processing) = true
      /\ click_process processing = (processing, [])).
Proof.
  intros checking processing. split; (split; [reflexivity|]).
  - apply (proj1 (C7_buttons_suppress_repeated_calls checking)). reflexivity.
  - apply (proj2 (C7_buttons_suppress_repeated_calls processing)). reflexivity.
Defined.

(** ** Calls without an image *)

(** C9, as the claim states it, fails: called in the initial state, where
    there is no image, neither handler stores an error. *)
Lemma C9_no_error_is_stored :
  originalImage initial = None
  /\ CheckState.error (checkState (fst (checkImage initial))) = None
  /\ ProcessingState.error (state (fst (processImage initial))) = None.
Proof. repeat split. Qed.

(** C9, amended: when no image is present [checkImage] and [processImage]
    return at once: no request is issued and the state is left as it was,
    so no error of either origin is stored. *)
Theorem C9_without_image_nothing_happens (s : Home) :
  originalImage s = None ->
  checkImage s = (s, []) /\ processImage s = (s, []).
Proof.
  intros H. split.
  - now apply checkImage_no_image.
  - now apply processImage_no_image.
Qed.

Lemma C9_without_image_nothing_happens_witness :
  originalImage initial = None
  /\ checkImage initial = (initial, [])
  /\ processImage initial = (initial, []).
Proof.
  split; [reflexivity|].
  apply (C9_without_image_nothing_happens initial). reflexivity.
Defined.

(** ** The dimension editor *)

(** What [handleDimensionChange] stores, by case. *)
Lemma handleDimensionChange_width (s : Home) (od : DimensionSettings) (value : Z) :
  originalDimensions s = Some od ->
  dimensions (handleDimensionChange Width value s)
  = {| width := value;
       height := Float64.Math_round
                   (Float64.fdiv (inject_Z value)
                      (Float64.fdiv (inject_Z (width od)) (inject_Z (height od)))) |}.
Proof. intros H. unfold handleDimensionChange. now rewrite H. Qed.

Lemma handleDimensionChange_height (s : Home) (od : DimensionSettings) (value : Z) :
  originalDimensions s = Some od ->
  dimensions (handleDimensionChange Height value s)
  = {| width := Float64.Math_round
                  (Float64.fmul (inject_Z value)
                     (Float64.fdiv (inject_Z (width od)) (inject_Z (height od))));
       height := value |}.
Proof. intros H. unfold handleDimensionChange. now rewrite H. Qed.

Lemma handleDimensionChange_no_image (s : Home) (value : Z) :
  originalDimensions s = None ->
  dimensions (handleDimensionChange Width value s)
    = {| width := value; height := height (dimensions s) |}
  /\ dimensions (handleDimensionChange Height value s)
    = {| width := width (dimensions s); height := value |}.
Proof. intros H. unfold handleDimensionChange. rewrite H. split; reflexivity. Qed.

Lemma inject_Z_pos (z : Z) : 0 < z -> (0 < inject_Z z)%Q.
Proof. intros H. change 0%Q with (inject_Z 0). now rewrite <- Zlt_Qlt. Qed.

Lemma inject_Z_bound (a b : Z) :
  a * b <= 2 ^ 50 -> (inject_Z a * inject_Z b <= 1125899906842624)%Q.
Proof.
  intros H. rewrite <- inject_Z_mult.
  change 1125899906842624%Q with (inject_Z (2 ^ 50)). now rewrite <- Zle_Qle.
Qed.

Section Recomputed.

(** A positive value edited on an image of natural size [ow] x [oh]. *)
Variables value ow oh : Z.
Hypothesis value_pos : 0 < value.
Hypothesis ow_pos : 0 < ow.
Hypothesis oh_pos : 0 < oh.

(** The height computed for an edited width, against the exact rounding. *)
Lemma recomputed_height :
  value * oh <= 2 ^ 50 ->
  let c := Float64.Math_round
             (Float64.fdiv (inject_Z value) (Float64.fdiv (inject_Z ow) (inject_Z oh))) in
  (~ half_way value oh ow -> c = exact_round value oh ow)
  /\ (c = exact_round value oh ow
      \/ (half_way value oh ow /\ c = exact_round value oh ow - 1)).
Proof.
  intros Hb c.
  destruct (Float64Facts.fdiv_fdiv_close (inject_Z value) (inject_Z ow) (inject_Z oh)
              (inject_Z_pos _ value_pos) (inject_Z_pos _ ow_pos) (inject_Z_pos _ oh_pos)
              (inject_Z_bound _ _ Hb)) as [L U].
  rewrite <- inject_Z_mult in L, U.
  unfold exact_round, half_way.
  rewrite (Float64Facts.Math_round_quotient (value * oh) ow ow_pos).
  exact (Float64Facts.Math_round_close _ (value * oh) ow ow_pos L U).
Qed.

(** The width computed for an edited height, against the exact rounding. *)
Lemma recomputed_width :
  value * ow <= 2 ^ 50 ->
  let c := Float64.Math_round
             (Float64.fmul (inject_Z value) (Float64.fdiv (inject_Z ow) (inject_Z oh))) in
  (~ half_way value ow oh -> c = exact_round value ow oh)
  /\ (c = exact_round value ow oh
      \/ (half_way value ow oh /\ c = exact_round value ow oh - 1)).
Proof.
  intros Hb c.
  destruct (Float64Facts.fmul_fdiv_close (inject_Z value) (inject_Z ow) (inject_Z oh)
              (inject_Z_pos _ value_pos) (inject_Z_pos _ ow_pos) (inject_Z_pos _ oh_pos)
              (inject_Z_bound _ _ Hb)) as [L U].
  rewrite <- inject_Z_mult in L, U.
  unfold exact_round, half_way.
  rewrite (Float64Facts.Math_round_quotient (value * ow) oh oh_pos).
  exact (Float64Facts.Math_round_close _ (value * ow) oh oh_pos L U).
Qed.

End Recomputed.

(** The exact rounding of a ratio that lies in [1, 5000], and the integer
    below it when the ratio is half-way, are in range. *)
Lemma exact_round_in_range (value num den : Z) :
  0 < den -> den <= value * num <= 5000 * den ->
  in_range (exact_round value num den)
  /\ (half_way value num den -> in_range (exact_round value num den - 1)).
Proof.
  intros Hd [Lo Hi]. unfold exact_round, half_way, in_range.
  rewrite (Float64Facts.Math_round_quotient (value * num) den Hd).
  pose proof (Z.div_mod (2 * (value * num) + den) (2 * den) ltac:(lia)) as E.
  pose proof (Z.mod_pos_bound (2 * (value * num) + den) (2 * den) ltac:(lia)) as [M0 M1].
  set (r := (2 * (value * num) + den) / (2 * den)) in *.
  set (f := (2 * (value * num) + den) mod (2 * den)) in *.
  split; [|intros T; rewrite T in E]; nia.
Qed.

(** C3, as the claim states it, fails: on a 100 x 290 image an edited width
    of 75 asks for [round (75 * 290 / 100)], the rounding of 217.5, which is
    218 (also when a tie goes to the even neighbour); the handler stores
    217, because [75 / (100 / 290)] evaluates to a number just below 217.5. *)
Lemma C3_recomputed_height_is_not_the_exact_rounding :
  originalDimensions (uploaded 100 290) = Some {| width := 100; height := 290 |}
  /\ dimensions (handleDimensionChange Width 75 (uploaded 100 290))
     = {| width := 75; height := 217 |}
  /\ exact_round 75 290 100 = 218
  /\ Float64.rne (inject_Z (75 * 290) / inject_Z 100) = 218
  /\ height (dimensions (handleDimensionChange Width 75 (uploaded 100 290)))
     <> exact_round 75 290 100.
Proof.
  split; [reflexivity|]. split; [vm_compute; reflexivity|].
  split; [vm_compute; reflexivity|]. split; [vm_compute; reflexivity|].
  vm_compute. discriminate.
Qed.

(** C3, amended: with an image of natural size [ow] x [oh] present the
    edited field is stored as given and the other field is recomputed as
    [Math.round (value / (ow / oh))] (width edited) or
    [Math.round (value * (ow / oh))] (height edited) in double precision.
    For a positive value (with [value * oh], resp. [value * ow], at most
    2^50) this is [round (value * oh / ow)], resp. [round (value * ow / oh)],
    whenever that ratio is not exactly half-way between two integers; when
    it is, the stored field is that rounding or the integer below it.
    Without an image only the edited field changes. *)
Theorem C3_setDimension_recomputes_the_other_field
    (s : Home) (od : DimensionSettings) (value : Z) :
  originalDimensions s = Some od ->
  0 < value -> 0 < width od -> 0 < height od ->
  value * height od <= 2 ^ 50 -> value * width od <= 2 ^ 50 ->
  let dw := dimensions (handleDimensionChange Width value s) in
  let dh := dimensions (handleDimensionChange Height value s) in
  (width dw = value
   /\ (~ half_way value (height od) (width od) ->
         height dw = exact_round value (height od) (width od))
   /\ (height dw = exact_round value (height od) (width od)
       \/ (half_way value (height od) (width od)
           /\ height dw = exact_round value (height od) (width od) - 1)))
  /\ (height dh = value
      /\ (~ half_way value (width od) (height od) ->
            width dh = exact_round value (width od) (height od))
      /\ (width dh = exact_round value (width od) (height od)
          \/ (half_way value (width od) (height od)
              /\ width dh = exact_round value (width od) (height od) - 1)))
  /\ (forall s0 : Home, originalDimensions s0 = None ->
        dimensions (handleDimensionChange Width value s0)
          = {| width := value; height := height (dimensions s0) |}
        /\ dimensions (handleDimensionChange Height value s0)
          = {| width := width (dimensions s0); height := value |}).
Proof.
  intros Hod Hv Hw Hh Bh Bw dw dh. subst dw dh.
  rewrite (handleDimensionChange_width s od value Hod).
  rewrite (handleDimensionChange_height s od value Hod).
  cbn [width height].
  destruct (recomputed_height value (width od) (height od) Hv Hw Hh Bh) as [H1 H2].
  destruct (recomputed_width value (width od) (height od) Hv Hw Hh Bw) as [W1 W2].
  repeat split; try assumption.
  - now apply handleDimensionChange_no_image.
  - now apply handleDimensionChange_no_image.
Qed.

Lemma C3_setDimension_recomputes_the_other_field_witness :
  originalDimensions (uploaded 2000 1000) = Some {| width := 2000; height := 1000 |}
  /\ ~ half_way 800 1000 2000
  /\ height (dimensions (handleDimensionChange Width 800 (uploaded 2000 1000)))
     = exact_round 800 1000 2000
  /\ exact_round 800 1000 2000 = 400.
Proof.
  assert (N : ~ half_way 800 1000 2000) by (vm_compute; discriminate).
  split; [reflexivity|]. split; [exact N|]. split; [|vm_compute; reflexivity].
  refine (proj1 (proj2 (proj1
    (C3_setDimension_recomputes_the_other_field (uploaded 2000 1000)
       {| width := 2000; height := 1000 |} 800 eq_refl _ _ _ _ _))) N);
    cbn [width height]; lia.
Defined.

(** C10: with an image present the stored dimensions after an edit are a
    function of the field, the value and the natural size alone: two states
    with the same natural size end with the same dimensions, and repeating
    the edit stores the same pair again. *)
Theorem C10_setDimension_ignores_the_stored_dimensions
    (s1 s2 : Home) (od : DimensionSettings) (field : Field) (value : Z) :
  originalDimensions s1 = Some od ->
  originalDimensions s2 = Some od ->
  dimensions (handleDimensionChange field value s1)
    = dimensions (handleDimensionChange field value s2)
  /\ dimensions (handleDimensionChange field value
                   (handleDimensionChange field value s1))
     = dimensions (handleDimensionChange field value s1).
Proof.
  intros H1 H2.
  assert (H3 : originalDimensions (handleDimensionChange field value s1) = Some od).
  { unfold handleDimensionChange. rewrite H1. destruct field; exact H1. }
  destruct field.
  - rewrite (handleDimensionChange_width _ od value H1),
            (handleDimensionChange_width _ od value H2),
            (handleDimensionChange_width _ od value H3). split; reflexivity.
  - rewrite (handleDimensionChange_height _ od value H1),
            (handleDimensionChange_height _ od value H2),
            (handleDimensionChange_height _ od value H3). split; reflexivity.
Qed.

Lemma C10_setDimension_ignores_the_stored_dimensions_witness :
  originalDimensions (uploaded 2000 1000)
    = originalDimensions (handleDimensionChange Height 37 (uploaded 2000 1000))
  /\ dimensions (handleDimensionChange Width 800 (uploaded 2000 1000))
     = dimensions (handleDimensionChange Width 800
                     (handleDimensionChange Height 37 (uploaded 2000 1000))).
Proof.
  split; [reflexivity|].
  apply (C10_setDimension_ignores_the_stored_dimensions
           (uploaded 2000 1000)
           (handleDimensionChange Height 37 (uploaded 2000 1000))
           {| width := 2000; height := 1000 |} Width 800); reflexivity.
Defined.

(** *** What each handler leaves alone *)

(** Case analysis on what a request came back with: [fetch] rejected, a
    status that is not a success (body read as text), or a success (body
    read by [read]). *)
Ltac outcomes fetched read :=
  let response := fresh "response" in
  destruct fetched as [response|?];
  [ destruct (negb (ok response));
    [ destruct (text response) | destruct (read response) ] | ].

(** Both requests and their continuations leave the image, its natural size
    and the target dimensions alone. *)
Lemma checkImage_frame (s : Home) :
  same_image_and_dimensions s (fst (checkImage s)).
Proof. unfold checkImage. destruct (originalImage s); repeat split. Qed.

Lemma processImage_frame (s : Home) :
  same_image_and_dimensions s (fst (processImage s)).
Proof. unfold processImage. destruct (originalImage s); repeat split. Qed.

Lemma click_check_frame (s : Home) :
  same_image_and_dimensions s (fst (click_check s)).
Proof.
  unfold click_check.
  destruct (buttons_rendered s && negb (checkButton_disabled s));
    [apply checkImage_frame | repeat split].
Qed.

Lemma click_process_frame (s : Home) :
  same_image_and_dimensions s (fst (click_process s)).
Proof.
  unfold click_process.
  destruct (buttons_rendered s && negb (processButton_disabled s));
    [apply processImage_frame | repeat split].
Qed.

Lemma checkImage_settled_frame (fetched : settled Response) (s : Home) :
  same_image_and_dimensions s (checkImage_settled fetched s).
Proof.
  unfold checkImage_settled, checkImage_try.
  outcomes fetched json_body;
    try match goal with |- context [get ?results _] => destruct results end;
    repeat split.
Qed.

Lemma processImage_settled_frame
    (fetched : settled Response) (s : Home) (b : Browser) :
  same_image_and_dimensions s (fst (fst (processImage_settled fetched s b))).
Proof.
  unfold processImage_settled.
  outcomes fetched blob; repeat split.
Qed.

Lemma selectOnlyFailed_frame (s : Home) :
  same_image_and_dimensions s (selectOnlyFailed s).
Proof.
  unfold selectOnlyFailed.
  destruct (CheckState.results (checkState s)); repeat split.
Qed.

Lemma reset_clears (s : Home) (b : Browser) :
  originalImage (fst (reset s b)) = None
  /\ originalDimensions (fst (reset s b)) = None
  /\ dimensions (fst (reset s b)) = {| width := 1200; height := 1200 |}.
Proof.
  unfold reset. destruct (ProcessingState.processedImage (state s)); repeat split.
Qed.

(** Only an upload, a reset and an edit write the target dimensions. *)
Lemma handle_dimensions (e : Event) (w : World) :
  match e with
  | UploadDecoded _ _ _ _ | ClickReset =>
      dimensions (home (handle e w)) = {| width := 1200; height := 1200 |}
  | ChangeDimension field value =>
      dimensions (home (handle e w))
      = dimensions (handleDimensionChange field value (home w))
  | _ => dimensions (home (handle e w)) = dimensions (home w)
  end.
Proof.
  destruct e; cbn [handle home]; try reflexivity.
  - unfold onDrop. destruct rejectedFiles; [destruct acceptedFiles|]; reflexivity.
  - pose proof (click_check_frame (home w)) as (_ & _ & E).
    destruct (click_check (home w)). exact E.
  - apply checkImage_settled_frame.
  - pose proof (click_process_frame (home w)) as (_ & _ & E).
    destruct (click_process (home w)). exact E.
  - pose proof (processImage_settled_frame fetched (home w) (browser w)) as (_ & _ & E).
    destruct (processImage_settled fetched (home w) (browser w)) as [[s' b'] pending].
    exact E.
  - apply selectOnlyFailed_frame.
  - pose proof (reset_clears (home w) (browser w)) as (_ & _ & E).
    destruct (reset (home w) (browser w)). exact E.
Qed.

(** C6, as the claim states it, fails: on a 1000 x 2000 image the in-range
    width 5000 gives the height 10000, and on a 3000 x 1000 image the
    in-range width 1 gives the height 0. *)
Lemma C6_recomputed_field_leaves_the_range :
  in_range 5000 /\ in_range 1
  /\ dimensions (handleDimensionChange Width 5000 (uploaded 1000 2000))
     = {| width := 5000; height := 10000 |}
  /\ dimensions (handleDimensionChange Width 1 (uploaded 3000 1000))
     = {| width := 1; height := 0 |}
  /\ ~ dimensions_in_range (handleDimensionChange Width 5000 (uploaded 1000 2000))
  /\ ~ dimensions_in_range (handleDimensionChange Width 1 (uploaded 3000 1000)).
Proof.
  assert (E1 : dimensions (handleDimensionChange Width 5000 (uploaded 1000 2000))
               = {| width := 5000; height := 10000 |}) by (vm_compute; reflexivity).
  assert (E2 : dimensions (handleDimensionChange Width 1 (uploaded 3000 1000))
               = {| width := 1; height := 0 |}) by (vm_compute; reflexivity).
  unfold dimensions_in_range, in_range. rewrite E1, E2. cbn [width height].
  repeat split; try lia; intros [_ ?]; lia.
Qed.

(** C6, amended: the target dimensions are 1200 x 1200 after an upload and
    after a reset, and no other event but an edit changes them.  An edit
    stores its value as given and recomputes the other field without
    clamping it.  So both fields stay within [1, 5000] after every event
    provided each edited value is in range and, with an image present, the
    ratio-scaled value it asks for lies in [1, 5000] as well. *)
Theorem C6_dimensions_stay_in_range (e : Event) (w : World) :
  dimensions_in_range (home w) ->
  edit_stays_in_range e (home w) ->
  dimensions_in_range (home (handle e w))
  /\ match e with
     | UploadDecoded _ _ _ _ | ClickReset =>
         dimensions (home (handle e w)) = {| width := 1200; height := 1200 |}
     | ChangeDimension _ _ => True
     | _ => dimensions (home (handle e w)) = dimensions (home w)
     end.
Proof.
  intros [Iw Ih] He.
  pose proof (handle_dimensions e w) as D.
  assert (I0 : in_range 1200) by (unfold in_range; lia).
  unfold dimensions_in_range.
  destruct e; try (rewrite D; split; [split; assumption | reflexivity]).
  - (* ChangeDimension *)
    split; [|exact I]. rewrite D. clear D.
    cbn [edit_stays_in_range] in He. destruct He as [Hv He].
    destruct (originalDimensions (home w)) as [od|] eqn:Hod.
    + destruct He as ([Hw0 Hw1] & [Hh0 Hh1] & Hr).
      assert (V0 : 0 < value) by (unfold in_range in Hv; lia).
      destruct field.
      * rewrite (handleDimensionChange_width _ od value Hod). cbn [width height].
        split; [exact Hv|].
        assert (B : value * height od <= 2 ^ 50) by (unfold in_range in Hv; nia).
        destruct (recomputed_height value (width od) (height od) V0 Hw0 Hh0 B)
          as [_ [-> | [T ->]]];
          destruct (exact_round_in_range value (height od) (width od) Hw0 Hr) as [R1 R2];
          auto.
      * rewrite (handleDimensionChange_height _ od value Hod). cbn [width height].
        split; [|exact Hv].
        assert (B : value * width od <= 2 ^ 50) by (unfold in_range in Hv; nia).
        destruct (recomputed_width value (width od) (height od) V0 Hw0 Hh0 B)
          as [_ [-> | [T ->]]];
          destruct (exact_round_in_range value (width od) (height od) Hh0 Hr) as [R1 R2];
          auto.
    + destruct (handleDimensionChange_no_image (home w) value Hod) as [E1 E2].
      destruct field; [rewrite E1 | rewrite E2]; cbn [width height]; now split.
Qed.

Lemma C6_dimensions_stay_in_range_witness :
  dimensions_in_range (uploaded 2000 1000)
  /\ edit_stays_in_range (ChangeDimension Width 800) (uploaded 2000 1000)
  /\ dimensions_in_range
       (handleDimensionChange Width 800 (uploaded 2000 1000)).
Proof.
  assert (I : dimensions_in_range (uploaded 2000 1000)).
  { change (in_range 1200 /\ in_range 1200). unfold in_range. lia. }
  assert (E : edit_stays_in_range (ChangeDimension Width 800) (uploaded 2000 1000)).
  { change (in_range 800
            /\ 0 < 2000 < 2 ^ 32 /\ 0 < 1000 < 2 ^ 32
            /\ 2000 <= 800 * 1000 <= 5000 * 2000).
    unfold in_range. lia. }
  split; [exact I|]. split; [exact E|].
  exact (proj1 (C6_dimensions_stay_in_range (ChangeDimension Width 800)
                  (mkWorld (uploaded 2000 1000) fresh_browser []) I E)).
Defined.

(** ** Failures of the remote operations *)

(** A check that fails before a body was parsed leaves the stored result
    and the fix options alone and stores a message. *)
Lemma check_failure_unparsed_is_atomic (fetched : settled Response) (s : Home) :
  check_fails_unparsed fetched = true ->
  let s' := checkImage_settled fetched s in
  CheckState.results (checkState s') = CheckState.results (checkState s)
  /\ fixOptions s' = fixOptions s
  /\ CheckState.error (checkState s') <> None
  /\ CheckState.isChecking (checkState s') = false.
Proof.
  unfold check_fails_unparsed, checkImage_settled, checkImage_try.
  destruct fetched as [response|e]; cbn.
  - destruct (negb (ok response)); cbn.
    + intros _. destruct (text response); cbn; repeat split; discriminate.
    + destruct (json_body response); [discriminate|].
      intros _. cbn. repeat split; discriminate.
  - intros _. repeat split; discriminate.
Qed.


Lemma decode_failure_keeps_the_artifact (s : Home) :
  let s' := processImage_img_onerror s in
  ProcessingState.processedImage (state s')
    = ProcessingState.processedImage (state s)
  /\ ProcessingState.processedImageDimensions (state s')
     = ProcessingState.processedImageDimensions (state s)
  /\ ProcessingState.error (state s') = Some "Failed to load processed image".
Proof. repeat split. Qed.

(** C4, where the code departs from the claim: a session holds the result
    of a check, the check is run again and the server answers with a success
    status and the body [null].  The handler has stored the parsed body as
    the new result before reading [results.dimension_check] throws, so the
    [catch] records the failure over a result that is already gone: the
    stored result is [null], the message is set, the fix options are the
    old ones. *)
Theorem C4_null_body_discards_the_stored_result :
  let before := fst (checkImage (checked 800 600)) in
  let after := checkImage_settled (ok_json JNull) before in
  CheckState.results (checkState before) = check_body false true false
  /\ CheckState.results (checkState after) = JNull
  /\ CheckState.error (checkState after)
     = Some "Cannot read properties of null (reading 'dimension_check')"
  /\ CheckState.isChecking (checkState after) = false
  /\ fixOptions after = fixOptions before.
Proof. repeat split. Qed.

(** ** Object URLs *)

(** C8, where the code departs from the claim: after two successful
    processing runs the URL of the first artifact is no longer referenced
    but still live, and nothing has been revoked; the reset that follows
    revokes the second URL only, and a new upload in its place revokes
    nothing at all. *)
Theorem C8_superseded_url_is_never_revoked :
  let w := run processed_twice start in
  let after_reset := handle ClickReset w in
  let after_upload := handle (UploadDecoded photo data_url 640 480) w in
  ProcessingState.processedImage (state (home w)) = Some 1%nat
  /\ live (browser w) = [1%nat; 0%nat]
  /\ revoked (browser w) = []
  /\ ProcessingState.processedImage (state (home after_reset)) = None
  /\ live (browser after_reset) = [0%nat]
  /\ revoked (browser after_reset) = [1%nat]
  /\ ProcessingState.processedImage (state (home after_upload)) = None
  /\ live (browser after_upload) = [1%nat; 0%nat]
  /\ revoked (browser after_upload) = [].
Proof. repeat split. Qed.

(** [reset] is the one place that revokes, and it revokes the URL the state
    refers to, once. *)
Lemma reset_revokes_the_current_url (s : Home) (b : Browser) :
  revoked (snd (reset s b))
  = match ProcessingState.processedImage (state s) with
    | Some url => url :: revoked b
    | None => revoked b
    end
  /\ ProcessingState.processedImage (state (fst (reset s b))) = None.
Proof.
  unfold reset. destruct (ProcessingState.processedImage (state s)); split; reflexivity.
Qed.

(** ** Image and natural size go together

    [handleDimensionChange] tests [originalDimensions] where the other
    handlers test [originalImage]; along every run the two are set or unset
    together. *)
Lemma handle_image_and_size (e : Event) (w : World) :
  (originalImage (home w) = None <-> originalDimensions (home w) = None) ->
  originalImage (home (handle e w)) = None
  <-> originalDimensions (home (handle e w)) = None.
Proof.
  intros Hw.
  assert (K : forall s', same_image_and_dimensions (home w) s' ->
              originalImage s' = None <-> originalDimensions s' = None).
  { intros s' (E1 & E2 & _). now rewrite E1, E2. }
  destruct e; cbn [handle home]; try exact Hw.
  - unfold onDrop. destruct rejectedFiles; [destruct acceptedFiles|]; exact Hw.
  - split; discriminate.
  - unfold handleDimensionChange.
    destruct (originalDimensions (home w)) eqn:E; destruct field;
      cbn; rewrite ?E; exact Hw.
  - pose proof (click_check_frame (home w)) as F.
    destruct (click_check (home w)). now apply K.
  - apply K, checkImage_settled_frame.
  - pose proof (click_process_frame (home w)) as F.
    destruct (click_process (home w)). now apply K.
  - pose proof (processImage_settled_frame fetched (home w) (browser w)) as F.
    destruct (processImage_settled fetched (home w) (browser w)) as [[s' b'] pending].
    now apply K.
  - apply K, selectOnlyFailed_frame.
  - pose proof (reset_clears (home w) (browser w)) as (E1 & E2 & _).
    destruct (reset (home w) (browser w)). cbn [fst home] in *. now rewrite E1, E2.
Qed.

(** Along every run from the initial page, the image and its natural size
    are set or unset together. *)
Lemma image_and_size_together (events : list Event) :
  let s := home (run events start) in
  originalImage s = None <-> originalDimensions s = None.
Proof.
  cbn zeta. unfold run.
  assert (G : forall w,
            (originalImage (home w) = None <-> originalDimensions (home w) = None) ->
            originalImage (home (fold_left (fun w e => handle e w) events w)) = None
            <-> originalDimensions
                  (home (fold_left (fun w e => handle e w) events w)) = None).
  { induction events as [|e events IH]; intros w Hw; [exact Hw|].
    cbn [fold_left]. apply IH. now apply handle_image_and_size. }
  apply G. split; reflexivity.
Qed.

(** * More on the dimension editor *)

Lemma exact_round_div (value num den : Z) :
  0 < den ->
  exact_round value num den = (2 * (value * num) + den) / (2 * den).
Proof. intros H. unfold exact_round. now apply Float64Facts.Math_round_quotient. Qed.

(** An integer that is the rounding of [N / D], or the integer below it
    when [N / D] is half-way, is within a half of [N / D]. *)
Lemma rounding_is_nearest (c N D : Z) :
  0 < D ->
  c = (2 * N + D) / (2 * D)
  \/ ((2 * N + D) mod (2 * D) = 0 /\ c = (2 * N + D) / (2 * D) - 1) ->
  2 * Z.abs (c * D - N) <= D.
Proof.
  intros HD H.
  pose proof (Z.div_mod (2 * N + D) (2 * D) ltac:(lia)) as E.
  pose proof (Z.mod_pos_bound (2 * N + D) (2 * D) ltac:(lia)) as [M0 M1].
  set (r := (2 * N + D) / (2 * D)) in *.
  set (f := (2 * N + D) mod (2 * D)) in *.
  destruct H as [-> | [T ->]]; [|rewrite T in E]; lia.
Qed.

(** With an image present, the recomputed field is a nearest integer to the
    exact ratio: the stored pair is off the natural aspect ratio by at most
    half a pixel in the recomputed field. *)
Theorem edit_keeps_the_ratio_within_half_a_pixel
    (s : Home) (od : DimensionSettings) (value : Z) :
  originalDimensions s = Some od ->
  0 < value -> 0 < width od -> 0 < height od ->
  value * height od <= 2 ^ 50 -> value * width od <= 2 ^ 50 ->
  let dw := dimensions (handleDimensionChange Width value s) in
  let dh := dimensions (handleDimensionChange Height value s) in
  2 * Z.abs (height dw * width od - width dw * height od) <= width od
  /\ 2 * Z.abs (width dh * height od - height dh * width od) <= height od.
Proof.
  intros Hod Hv Hw Hh Bh Bw dw dh. subst dw dh.
  rewrite (handleDimensionChange_width s od value Hod).
  rewrite (handleDimensionChange_height s od value Hod).
  cbn [width height].
  destruct (recomputed_height value (width od) (height od) Hv Hw Hh Bh) as [_ H].
  destruct (recomputed_width value (width od) (height od) Hv Hw Hh Bw) as [_ W].
  unfold half_way in H, W.
  rewrite (exact_round_div _ _ _ Hw) in H. rewrite (exact_round_div _ _ _ Hh) in W.
  split; apply rounding_is_nearest; assumption.
Qed.

Lemma edit_keeps_the_ratio_within_half_a_pixel_witness :
  originalDimensions (uploaded 100 290) = Some {| width := 100; height := 290 |}
  /\ 2 * Z.abs (height (dimensions (handleDimensionChange Width 75 (uploaded 100 290)))
                * 100 - 75 * 290) <= 100.
Proof.
  split; [reflexivity|].
  refine (proj1 (edit_keeps_the_ratio_within_half_a_pixel (uploaded 100 290)
                   {| width := 100; height := 290 |} 75 eq_refl _ _ _ _ _));
    cbn [width height]; lia.
Defined.

Lemma rounding_of_a_multiple (N D : Z) :
  0 < D -> N mod D = 0 ->
  (2 * N + D) mod (2 * D) <> 0 /\ (2 * N + D) / (2 * D) = N / D.
Proof.
  intros HD HN.
  pose proof (Z.div_mod N D ltac:(lia)) as E. rewrite HN in E.
  assert (E2 : 2 * N + D = D + (N / D) * (2 * D)) by lia.
  rewrite E2. split.
  - rewrite Z.mod_add by lia. rewrite Z.mod_small by lia. lia.
  - rewrite Z.div_add by lia. rewrite Z.div_small by lia. lia.
Qed.

Lemma width_edit_exact (s : Home) (od : DimensionSettings) (value : Z) :
  originalDimensions s = Some od ->
  0 < value -> 0 < width od -> 0 < height od ->
  value * height od <= 2 ^ 50 ->
  (value * height od) mod width od = 0 ->
  dimensions (handleDimensionChange Width value s)
  = {| width := value; height := value * height od / width od |}.
Proof.
  intros Hod Hv Hw Hh Bh Hm.
  rewrite (handleDimensionChange_width s od value Hod).
  destruct (recomputed_height value (width od) (height od) Hv Hw Hh Bh) as [H _].
  destruct (rounding_of_a_multiple _ _ Hw Hm) as [K1 K2].
  rewrite (H K1), (exact_round_div _ _ _ Hw), K2. reflexivity.
Qed.

Lemma height_edit_exact (s : Home) (od : DimensionSettings) (value : Z) :
  originalDimensions s = Some od ->
  0 < value -> 0 < width od -> 0 < height od ->
  value * width od <= 2 ^ 50 ->
  (value * width od) mod height od = 0 ->
  dimensions (handleDimensionChange Height value s)
  = {| width := value * width od / height od; height := value |}.
Proof.
  intros Hod Hv Hw Hh Bw Hm.
  rewrite (handleDimensionChange_height s od value Hod).
  destruct (recomputed_width value (width od) (height od) Hv Hw Hh Bw) as [W _].
  destruct (rounding_of_a_multiple _ _ Hh Hm) as [K1 K2].
  rewrite (W K1), (exact_round_div _ _ _ Hh), K2. reflexivity.
Qed.



(** Entering the natural width, or the natural height, brings the target
    dimensions back to the natural size of the image. *)
Theorem edit_to_the_natural_size_restores_it
    (s : Home) (od : DimensionSettings) :
  originalDimensions s = Some od ->
  0 < width od -> 0 < height od -> width od * height od <= 2 ^ 50 ->
  dimensions (handleDimensionChange Width (width od) s) = od
  /\ dimensions (handleDimensionChange Height (height od) s) = od.
Proof.
  intros Hod Hw Hh B.
  assert (B' : height od * width od <= 2 ^ 50) by lia.
  split.
  - rewrite (width_edit_exact s od (width od) Hod Hw Hw Hh B).
    + rewrite (Z.mul_comm (width od)), Z.div_mul by lia. now destruct od.
    + rewrite (Z.mul_comm (width od)). apply Z.mod_mul. lia.
  - rewrite (height_edit_exact s od (height od) Hod Hh Hw Hh B').
    + rewrite (Z.mul_comm (height od)), Z.div_mul by lia. now destruct od.
    + rewrite (Z.mul_comm (height od)). apply Z.mod_mul. lia.
Qed.

Lemma edit_to_the_natural_size_restores_it_witness :
  originalDimensions (uploaded 1920 1080) = Some {| width := 1920; height := 1080 |}
  /\ dimensions (handleDimensionChange Width 1920
                   (handleDimensionChange Height 37 (uploaded 1920 1080)))
     = {| width := 1920; height := 1080 |}.
Proof.
  split; [reflexivity|].
  refine (proj1 (edit_to_the_natural_size_restores_it
                   (handleDimensionChange Height 37 (uploaded 1920 1080))
                   {| width := 1920; height := 1080 |} eq_refl _ _ _));
    cbn [width height]; lia.
Defined.

(** Roundings of [N1 / D] and [N2 / D] with [N1 < N2], each possibly
    replaced by the integer below when half-way, are in order. *)
Lemma roundings_in_order (c1 c2 N1 N2 D : Z) :
  0 < D -> N1 < N2 ->
  c1 = (2 * N1 + D) / (2 * D)
  \/ ((2 * N1 + D) mod (2 * D) = 0 /\ c1 = (2 * N1 + D) / (2 * D) - 1) ->
  c2 = (2 * N2 + D) / (2 * D)
  \/ ((2 * N2 + D) mod (2 * D) = 0 /\ c2 = (2 * N2 + D) / (2 * D) - 1) ->
  c1 <= c2.
Proof.
  intros HD HN H1 H2.
  pose proof (Z.div_mod (2 * N1 + D) (2 * D) ltac:(lia)) as E1.
  pose proof (Z.mod_pos_bound (2 * N1 + D) (2 * D) ltac:(lia)) as [A0 A1].
  pose proof (Z.div_mod (2 * N2 + D) (2 * D) ltac:(lia)) as E2.
  pose proof (Z.mod_pos_bound (2 * N2 + D) (2 * D) ltac:(lia)) as [B0 B1].
  set (r1 := (2 * N1 + D) / (2 * D)) in *.
  set (f1 := (2 * N1 + D) mod (2 * D)) in *.
  set (r2 := (2 * N2 + D) / (2 * D)) in *.
  set (f2 := (2 * N2 + D) mod (2 * D)) in *.
  destruct H1 as [-> | [T1 ->]]; destruct H2 as [-> | [T2 ->]];
    rewrite ?T1 in E1; rewrite ?T2 in E2; nia.
Qed.

(** With an image present the recomputed field grows with the edited one:
    a larger width never gives a smaller height, nor a larger height a
    smaller width. *)
Theorem edit_is_monotone
    (s : Home) (od : DimensionSettings) (v1 v2 : Z) :
  originalDimensions s = Some od ->
  0 < width od -> 0 < height od ->
  0 < v1 -> v1 <= v2 ->
  v2 * height od <= 2 ^ 50 -> v2 * width od <= 2 ^ 50 ->
  height (dimensions (handleDimensionChange Width v1 s))
    <= height (dimensions (handleDimensionChange Width v2 s))
  /\ width (dimensions (handleDimensionChange Height v1 s))
     <= width (dimensions (handleDimensionChange Height v2 s)).
Proof.
  intros Hod Hw Hh H1 H12 Bh Bw.
  destruct (Z.eq_dec v1 v2) as [->|Hne]; [split; lia|].
  assert (V2 : 0 < v2) by lia.
  assert (Bh1 : v1 * height od <= 2 ^ 50) by nia.
  assert (Bw1 : v1 * width od <= 2 ^ 50) by nia.
  rewrite !(handleDimensionChange_width s od _ Hod).
  rewrite !(handleDimensionChange_height s od _ Hod).
  cbn [width height].
  destruct (recomputed_height v1 (width od) (height od) H1 Hw Hh Bh1) as [_ A1].
  destruct (recomputed_height v2 (width od) (height od) V2 Hw Hh Bh) as [_ A2].
  destruct (recomputed_width v1 (width od) (height od) H1 Hw Hh Bw1) as [_ C1].
  destruct (recomputed_width v2 (width od) (height od) V2 Hw Hh Bw) as [_ C2].
  unfold half_way in *.
  rewrite (exact_round_div _ _ _ Hw) in A1. rewrite (exact_round_div _ _ _ Hw) in A2.
  rewrite (exact_round_div _ _ _ Hh) in C1. rewrite (exact_round_div _ _ _ Hh) in C2.
  split.
  - apply (roundings_in_order _ _ (v1 * height od) (v2 * height od) (width od));
      try assumption; nia.
  - apply (roundings_in_order _ _ (v1 * width od) (v2 * width od) (height od));
      try assumption; nia.
Qed.

Lemma edit_is_monotone_witness :
  originalDimensions (uploaded 100 290) = Some {| width := 100; height := 290 |}
  /\ height (dimensions (handleDimensionChange Width 74 (uploaded 100 290)))
     <= height (dimensions (handleDimensionChange Width 75 (uploaded 100 290))).
Proof.
  split; [reflexivity|].
  refine (proj1 (edit_is_monotone (uploaded 100 290)
                   {| width := 100; height := 290 |} 74 75 eq_refl _ _ _ _ _ _));
    cbn [width height]; lia.
Defined.

(** An edit writes the target dimensions and nothing else: the image, a
    stored check result, the fix options and the processed image stay, and
    so does the state of both buttons; the requests sent afterwards carry
    the edited dimensions. *)
Theorem edit_touches_only_the_dimensions (field : Field) (value : Z) (s : Home) :
  let s' := handleDimensionChange field value s in
  originalImage s' = originalImage s
  /\ originalDimensions s' = originalDimensions s
  /\ state s' = state s
  /\ checkState s' = checkState s
  /\ fixOptions s' = fixOptions s
  /\ checkButton_disabled s' = checkButton_disabled s
  /\ processButton_disabled s' = processButton_disabled s
  /\ (forall img, originalImage s = Some img ->
        snd (checkImage s')
        = [CheckImage (file img) (width (dimensions s')) (height (dimensions s'))]
        /\ snd (processImage s')
           = [ProcessImage (file img)
                (fix_dimensions (fixOptions s)) (fix_background (fixOptions s))
                (fix_alignment (fixOptions s))
                (width (dimensions s')) (height (dimensions s'))]).
Proof.
  intros s'.
  assert (F : originalImage s' = originalImage s
              /\ originalDimensions s' = originalDimensions s
              /\ state s' = state s /\ checkState s' = checkState s
              /\ fixOptions s' = fixOptions s).
  { subst s'. unfold handleDimensionChange.
    destruct (originalDimensions s) eqn:E; destruct field; cbn; rewrite ?E;
      repeat split. }
  destruct F as (F1 & F2 & F3 & F4 & F5).
  repeat split; try assumption.
  - unfold checkButton_disabled. now rewrite F4.
  - unfold processButton_disabled. now rewrite F3, F4.
  - apply checkImage_sends. now rewrite F1.
  - rewrite <- F5. apply processImage_sends. now rewrite F1.
Qed.

(** * More on the check *)

Lemma get_member (v : json) (key : string) :
  v <> JNull -> get v key = Ok (member v key).
Proof. destruct v; intros H; try reflexivity. now elim H. Qed.

(** What a successful check stores, for any body that is not [null]. *)
Lemma checkImage_settled_success (response : Response) (body : json) (s : Home) :
  ok response = true -> json_body response = Resolved body -> body <> JNull ->
  checkImage_settled (Resolved response) s
  = setFixOptions (fun _ =>
      {| fix_dimensions := negb (truthy (member body "dimension_check"));
         fix_background := negb (truthy (member body "background_check"));
         fix_alignment := negb (truthy (member body "alignment_check")) |})
      (setCheckState (fun prev =>
         CheckState.mk false (CheckState.error prev) body) s).
Proof.
  intros Hok Hj Hb. unfold checkImage_settled, checkImage_try.
  rewrite Hok, Hj. cbn [negb].
  rewrite !(get_member body _ Hb). reflexivity.
Qed.

(** Whatever the request came back with, the check is no longer in flight
    afterwards.  A response taken as a result leaves the error as it was
    (cleared, when the check was started); every other outcome stores a
    message and leaves the fix options alone. *)
Theorem check_always_settles (fetched : settled Response) (s : Home) :
  let s' := checkImage_settled fetched s in
  CheckState.isChecking (checkState s') = false
  /\ (check_succeeds fetched = true ->
        CheckState.error (checkState s') = CheckState.error (checkState s))
  /\ (check_succeeds fetched = false ->
        CheckState.error (checkState s') <> None
        /\ fixOptions s' = fixOptions s).
Proof.
  unfold check_succeeds, checkImage_settled, checkImage_try.
  destruct fetched as [response|e]; [|cbn; repeat split; intros; discriminate].
  destruct (ok response); cbn [negb andb].
  - destruct (json_body response) as [body|e];
      [destruct body|]; cbn; repeat split; intros; try discriminate; reflexivity.
  - destruct (text response); cbn; repeat split; intros; discriminate.
Qed.

(** Started on an image and answered with a result, the check leaves no
    error behind. *)
Lemma check_success_clears_the_error
    (response : Response) (body : json) (s : Home) :
  ok response = true -> json_body response = Resolved body -> body <> JNull ->
  CheckState.error
    (checkState (checkImage_settled (Resolved response) (fst (checkImage s))))
  = match originalImage s with
    | Some _ => None
    | None => CheckState.error (checkState s)
    end.
Proof.
  intros Hok Hj Hb. rewrite (checkImage_settled_success _ _ _ Hok Hj Hb).
  unfold checkImage. destruct (originalImage s); reflexivity.
Qed.

(** "Only Failed" brings back the selection the check made: in any state
    that holds the body of a successful check as its result, whatever the
    user toggled since, it sets the fix options the check had set. *)
Theorem only_failed_restores_the_selection_of_the_check
    (response : Response) (body : json) (s s2 : Home) :
  ok response = true -> json_body response = Resolved body -> body <> JNull ->
  CheckState.results (checkState s2) = body ->
  fixOptions (selectOnlyFailed s2)
  = fixOptions (checkImage_settled (Resolved response) s).
Proof.
  intros Hok Hj Hb H2.
  rewrite (checkImage_settled_success _ _ _ Hok Hj Hb).
  unfold selectOnlyFailed. rewrite H2, !(get_member body _ Hb). reflexivity.
Qed.

Lemma only_failed_restores_the_selection_of_the_check_witness :
  CheckState.results (checkState (selectAll (checked 800 600)))
    = check_body false true false
  /\ fixOptions (selectOnlyFailed (selectAll (checked 800 600)))
     = fixOptions (checked 800 600).
Proof.
  split; [reflexivity|].
  apply (only_failed_restores_the_selection_of_the_check
           (mkResponse 200 (Resolved "") (Resolved (check_body false true false))
                       (Resolved ""))
           (check_body false true false));
    try reflexivity; discriminate.
Defined.

(** A response whose body is a falsy value other than [null] ([false], [0]
    or the empty string) is taken as a result and leaves no trace: no error
    is stored, the panel of results is not rendered, the Process button
    stays disabled, and every fix option is selected. *)
Theorem falsy_check_body_leaves_no_trace
    (response : Response) (body : json) (s : Home) (img : OriginalImage) :
  originalImage s = Some img ->
  ok response = true -> json_body response = Resolved body ->
  body <> JNull -> truthy (Some body) = false ->
  let s' := checkImage_settled (Resolved response) (fst (checkImage s)) in
  CheckState.error (checkState s') = None
  /\ CheckState.isChecking (checkState s') = false
  /\ CheckResults_rendered s' = false
  /\ processButton_disabled s' = true
  /\ fixOptions s' = {| fix_dimensions := true; fix_background := true;
                        fix_alignment := true |}.
Proof.
  intros Himg Hok Hj Hb Hf s'. subst s'.
  rewrite (checkImage_settled_success _ _ _ Hok Hj Hb).
  unfold checkImage. rewrite Himg.
  unfold CheckResults_rendered, processButton_disabled. cbn -[truthy member].
  rewrite Hf. cbn -[truthy member]. rewrite orb_true_r.
  assert (M : forall key, member body key = None).
  { intros key. destruct body; try reflexivity; discriminate. }
  rewrite !M. repeat split.
Qed.

Lemma falsy_check_body_leaves_no_trace_witness :
  originalImage (uploaded 800 600) = Some {| file := photo; preview := data_url |}
  /\ truthy (Some (JBool false)) = false
  /\ CheckResults_rendered
       (checkImage_settled (ok_json (JBool false))
          (fst (checkImage (uploaded 800 600)))) = false.
Proof.
  split; [reflexivity|]. split; [reflexivity|].
  refine (proj1 (proj2 (proj2
    (falsy_check_body_leaves_no_trace
       (mkResponse 200 (Resolved "") (Resolved (JBool false)) (Resolved ""))
       (JBool false) (uploaded 800 600) _ eq_refl eq_refl eq_refl _ eq_refl))));
    discriminate.
Defined.

(** Right after a check has stored a truthy result, the overall status is
    "all passed" exactly when no fix is selected, and the number of selected
    fixes is the number of checks that did not pass. *)
Theorem all_passed_iff_nothing_selected
    (response : Response) (body : json) (s : Home) :
  ok response = true -> json_body response = Resolved body ->
  truthy (Some body) = true ->
  let s' := checkImage_settled (Resolved response) s in
  truthy (getOverallStatus s') = Nat.eqb (selectedCount s') 0
  /\ selectedCount s'
     = List.length (filter negb
         [truthy (member body "dimension_check");
          truthy (member body "background_check");
          truthy (member body "alignment_check")]).
Proof.
  intros Hok Hj Ht s'. subst s'.
  assert (Hb : body <> JNull) by (intros ->; discriminate).
  rewrite (checkImage_settled_success _ _ _ Hok Hj Hb).
  unfold getOverallStatus, selectedCount, js_and. cbn -[truthy member].
  rewrite Ht. cbn -[truthy member].
  destruct (truthy (member body "background_check")) eqn:B;
    destruct (truthy (member body "dimension_check")) eqn:D;
    destruct (truthy (member body "alignment_check")) eqn:A;
    cbn -[truthy member]; rewrite ?B, ?D, ?A; split; reflexivity.
Qed.

Lemma all_passed_iff_nothing_selected_witness :
  truthy (Some (check_body true true true)) = true
  /\ truthy (getOverallStatus
               (checkImage_settled (ok_json (check_body true true true))
                  (uploaded 800 600))) = true
  /\ selectedCount (checked 800 600) = 2%nat.
Proof.
  split; [reflexivity|]. split.
  - exact (proj1 (all_passed_iff_nothing_selected
             (mkResponse 200 (Resolved "") (Resolved (check_body true true true))
                         (Resolved ""))
             (check_body true true true) (uploaded 800 600)
             eq_refl eq_refl eq_refl)).
  - exact (proj2 (all_passed_iff_nothing_selected
             (mkResponse 200 (Resolved "") (Resolved (check_body false true false))
                         (Resolved ""))
             (check_body false true false) (fst (checkImage (uploaded 800 600)))
             eq_refl eq_refl eq_refl)).
Defined.

(** A response is applied to the session that is current when it arrives:
    after a new upload, the late answer to a check of the previous image is
    stored as the result of the new one and enables its processing; and a
    late decoded artifact is stored and offered for download under the name
    of the new image. *)
Theorem late_responses_land_in_the_new_session
    (response : Response) (body : json) (s : Home)
    (f : File) (readerResult : string) (img_width img_height : Z)
    (processedUrl : ObjectURL) (pw ph : Z) :
  ok response = true -> json_body response = Resolved body ->
  truthy (Some body) = true ->
  let fresh := onDrop_img_onload f readerResult img_width img_height s in
  let s' := checkImage_settled (Resolved response) fresh in
  let s'' := processImage_img_onload processedUrl pw ph fresh in
  snd (click_process fresh) = []
  /\ CheckState.results (checkState s') = body
  /\ originalImage s' = Some {| file := f; preview := readerResult |}
  /\ (exists fd fb fa, snd (click_process s') = [ProcessImage f fd fb fa 1200 1200])
  /\ processedPanel s'' = PanelImage processedUrl
  /\ (exists download_name, downloadImage s'' = Some (processedUrl, download_name)).
Proof.
  intros Hok Hj Ht fresh s' s''. subst s' s''.
  assert (Hb : body <> JNull) by (intros ->; discriminate).
  rewrite (checkImage_settled_success _ _ _ Hok Hj Hb).
  subst fresh. repeat split.
  - unfold click_process, processButton_disabled. cbn -[truthy member].
    rewrite Ht. cbn -[truthy member]. do 3 eexists. reflexivity.
  - eexists. reflexivity.
Qed.

Lemma late_responses_land_in_the_new_session_witness :
  truthy (Some (check_body false true false)) = true
  /\ CheckState.results
       (checkState
          (checkImage_settled (ok_json (check_body false true false))
             (onDrop_img_onload photo data_url 640 480 (checked 800 600))))
     = check_body false true false.
Proof.
  split; [reflexivity|].
  exact (proj1 (proj2 (late_responses_land_in_the_new_session
    (mkResponse 200 (Resolved "") (Resolved (check_body false true false))
                (Resolved ""))
    (check_body false true false) (checked 800 600) photo data_url 640 480
    0%nat 1200 1200 eq_refl eq_refl eq_refl))).
Defined.

(** * More on processing, reset and upload *)



(** [reset] brings every piece of state back to its initial value and
    revokes the URL of the stored artifact, if there is one; a second reset
    changes nothing and revokes nothing. *)
Theorem reset_twice_is_reset_once (s : Home) (b : Browser) :
  fst (reset s b) = initial
  /\ snd (reset s b)
     = match ProcessingState.processedImage (state s) with
       | Some url => revokeObjectURL url b
       | None => b
       end
  /\ reset (fst (reset s b)) (snd (reset s b)) = reset s b.
Proof.
  unfold reset.
  destruct (ProcessingState.processedImage (state s)); cbn;
    (split; [reflexivity | split; reflexivity]).
Qed.

(** [onDrop] hands a file to the reader exactly when nothing was rejected
    and something was accepted, and then it is the first accepted file and
    the state is untouched.  With a rejected file the upload message is
    stored and everything else, a loaded image included, stays as it was. *)
Theorem onDrop_reads_only_a_clean_drop
    (acceptedFiles rejectedFiles : list File) (s : Home) :
  (snd (onDrop acceptedFiles rejectedFiles s) = hd_error acceptedFiles
   /\ fst (onDrop acceptedFiles rejectedFiles s) = s
   /\ rejectedFiles = [])
  \/ (snd (onDrop acceptedFiles rejectedFiles s) = None
      /\ rejectedFiles <> []
      /\ ProcessingState.error (state (fst (onDrop acceptedFiles rejectedFiles s)))
         = Some "Please upload a valid image file"
      /\ same_image_and_dimensions s (fst (onDrop acceptedFiles rejectedFiles s))
      /\ ProcessingState.processedImage
           (state (fst (onDrop acceptedFiles rejectedFiles s)))
         = ProcessingState.processedImage (state s)
      /\ checkState (fst (onDrop acceptedFiles rejectedFiles s)) = checkState s
      /\ fixOptions (fst (onDrop acceptedFiles rejectedFiles s)) = fixOptions s).
Proof.
  unfold onDrop. destruct rejectedFiles as [|r rs].
  - left. destruct acceptedFiles; repeat split.
  - right. repeat split. discriminate.
Qed.

(** ** Object URLs along a run *)

Lemma filter_out_absent (u : ObjectURL) (l : list ObjectURL) :
  ~ In u l -> filter (fun v => negb (Nat.eqb v u)) l = l.
Proof.
  induction l as [|y l IH]; intros H; [reflexivity|]. cbn.
  destruct (Nat.eqb y u) eqn:E.
  - apply Nat.eqb_eq in E. subst y. elim H. now left.
  - cbn. rewrite IH; [reflexivity|]. intros Hin. apply H. now right.
Qed.

Lemma filter_out_one (u : ObjectURL) (l : list ObjectURL) :
  NoDup l ->
  (List.length l <= S (List.length (filter (fun v => negb (Nat.eqb v u)) l)))%nat.
Proof.
  unfold ObjectURL in *.
  induction l as [|x l IH]; intros N; [cbn; lia|].
  inversion N as [|? ? Hx Hl]; subst. cbn.
  destruct (Nat.eqb x u) eqn:E; cbn.
  - apply Nat.eqb_eq in E. subst x. rewrite (filter_out_absent u l Hx).
    apply Nat.le_refl.
  - specialize (IH Hl). lia.
Qed.

Lemma revoke_keeps_registry (u : ObjectURL) (b : Browser) :
  registry_ok b -> registry_ok (revokeObjectURL u b).
Proof.
  intros (N & L & C). unfold registry_ok, revokeObjectURL. cbn.
  split; [now apply NoDup_filter|]. split.
  - intros v Hv. apply filter_In in Hv. now apply L.
  - pose proof (filter_out_one u (live b) N) as F.
    unfold ObjectURL in *. lia.
Qed.

Lemma create_keeps_registry (b : Browser) :
  registry_ok b -> registry_ok (snd (createObjectURL b)).
Proof.
  intros (N & L & C). unfold registry_ok, createObjectURL. cbn.
  split; [|split].
  - constructor; [|exact N]. intros H. apply L in H. lia.
  - intros v [<-|Hv]; [lia|]. apply L in Hv. lia.
  - lia.
Qed.

(** One event against the registry: a processing response that arrives with
    a readable body creates one URL, a reset revokes at most one, and no
    other event touches it. *)
Lemma handle_registry (e : Event) (w : World) :
  registry_ok (browser w) ->
  registry_ok (browser (handle e w))
  /\ created (browser (handle e w))
     = (created (browser w) + (if creates_url e then 1 else 0))%nat
  /\ (List.length (revoked (browser (handle e w)))
      <= List.length (revoked (browser w)) + (if is_reset e then 1 else 0))%nat
  /\ (is_reset e = false -> revoked (browser (handle e w)) = revoked (browser w)).
Proof.
  intros R.
  assert (Same : forall b n,
            b = browser w -> n = 0%nat ->
            registry_ok b
            /\ created b = (created (browser w) + 0)%nat
            /\ (List.length (revoked b) <= List.length (revoked (browser w)) + n)%nat
            /\ (false = false -> revoked b = revoked (browser w))).
  { intros b n -> ->. rewrite !Nat.add_0_r. split; [exact R|].
    split; [reflexivity|]. split; [apply Nat.le_refl | reflexivity]. }
  destruct e; cbn [handle browser creates_url is_reset];
    try (apply Same; reflexivity).
  - destruct (click_check (home w)). apply Same; reflexivity.
  - destruct (click_process (home w)). apply Same; reflexivity.
  - unfold processImage_settled, process_request_fails.
    destruct fetched as [response|e]; cbn [negb]; [|apply Same; reflexivity].
    destruct (negb (ok response)); cbn [orb negb].
    + destruct (text response); apply Same; reflexivity.
    + destruct (blob response); cbn [negb]; [|apply Same; reflexivity].
      cbn. split; [exact (create_keeps_registry _ R)|].
      split; [lia|]. split; [rewrite Nat.add_0_r; apply Nat.le_refl | reflexivity].
  - unfold reset. destruct (ProcessingState.processedImage (state (home w))); cbn.
    + split; [now apply revoke_keeps_registry|].
      split; [lia|]. split; [lia | discriminate].
    + split; [exact R|]. split; [lia|]. split; [lia | discriminate].
Qed.

Lemma run_registry (events : list Event) (w : World) :
  registry_ok (browser w) ->
  registry_ok (browser (run events w))
  /\ created (browser (run events w))
     = (created (browser w) + List.length (filter creates_url events))%nat
  /\ (List.length (revoked (browser (run events w)))
      <= List.length (revoked (browser w))
         + List.length (filter is_reset events))%nat.
Proof.
  revert w. induction events as [|e events IH]; intros w R.
  - cbn. rewrite !Nat.add_0_r.
    split; [exact R|]. split; [reflexivity | apply Nat.le_refl].
  - destruct (handle_registry e w R) as (R1 & C1 & V1 & _).
    destruct (IH (handle e w) R1) as (R2 & C2 & V2).
    change (run (e :: events) w) with (run events (handle e w)).
    split; [exact R2|]. cbn [filter].
    destruct (creates_url e); destruct (is_reset e); cbn [List.length] in *; lia.
Qed.

(** Along every run, the object URLs created are as many as the processing
    responses that arrived with a readable body, the revocations are at
    most as many as the resets, and only a reset revokes; so at least
    (responses - resets) of the URLs are still live at the end. *)
Theorem object_urls_outnumber_resets (events : list Event) :
  let b := browser (run events start) in
  created b = List.length (filter creates_url events)
  /\ (List.length (revoked b) <= List.length (filter is_reset events))%nat
  /\ (List.length (filter creates_url events)
      <= List.length (live b) + List.length (filter is_reset events))%nat
  /\ (forall e w, is_reset e = false ->
        revoked (browser (handle e w)) = revoked (browser w)).
Proof.
  assert (R0 : registry_ok (browser start)).
  { unfold registry_ok. cbn. repeat split; [constructor | intros u [] | lia]. }
  destruct (run_registry events start R0) as ((N & L & C) & Hc & Hr).
  cbn [start browser fresh_browser created revoked List.length Nat.add] in Hc, Hr.
  cbn zeta. repeat split; try lia.
  intros e w He.
  destruct e; try discriminate; cbn [handle browser]; try reflexivity.
  - now destruct (click_check (home w)).
  - now destruct (click_process (home w)).
  - unfold processImage_settled.
    destruct fetched as [response|e]; [|reflexivity].
    destruct (negb (ok response)).
    + destruct (text response); reflexivity.
    + destruct (blob response); reflexivity.
Qed.

(** * The download *)

Lemma no_slash_or_dot_app_dot (x y : string) :
  no_slash_or_dot (x ++ String "."%char y) = false.
Proof.
  induction x as [|c x IH]; cbn.
  - reflexivity.
  - rewrite IH. now rewrite andb_false_r.
Qed.

Lemma strip_extension_base_ext (base ext : string) :
  ext <> "" -> no_slash_or_dot ext = true ->
  strip_extension (base ++ "." ++ ext) = base.
Proof.
  intros Hne Hext. induction base as [|c base IH]; cbn.
  - rewrite Hext. destruct ext; [now elim Hne|]. reflexivity.
  - change (base ++ String "."%char ext) with (base ++ "." ++ ext) in *.
    rewrite IH.
    change (base ++ "." ++ ext) with (base ++ String "."%char ext).
    rewrite no_slash_or_dot_app_dot. now rewrite !andb_false_r.
Qed.

(** The extension that is cut is the last one: for a name made of any base,
    a dot and a non-empty extension without dot or slash, what is left is
    the base, dots of the base included; so cutting twice can cut twice. *)
Theorem strip_extension_cuts_the_last_extension (base ext : string) :
  ext <> "" -> no_slash_or_dot ext = true ->
  strip_extension (base ++ "." ++ ext) = base
  /\ (forall ext0, ext0 <> "" -> no_slash_or_dot ext0 = true ->
        strip_extension (strip_extension ((base ++ "." ++ ext) ++ "." ++ ext0))
        = base).
Proof.
  intros Hne Hext. split.
  - now apply strip_extension_base_ext.
  - intros ext0 Hne0 Hext0.
    rewrite (strip_extension_base_ext _ ext0 Hne0 Hext0).
    now apply strip_extension_base_ext.
Qed.

Lemma strip_extension_cuts_the_last_extension_witness :
  "gz" <> "" /\ strip_extension "archive.tar.gz" = "archive.tar".
Proof.
  split; [discriminate|].
  apply (proj1 (strip_extension_cuts_the_last_extension "archive.tar" "gz"
                  ltac:(discriminate) eq_refl)).
Defined.

(** A name without dot or slash is left as it is, and so is any name that
    ends with a dot. *)
Theorem strip_extension_keeps_a_name_without_extension (name : string) :
  (no_slash_or_dot name = true -> strip_extension name = name)
  /\ strip_extension (name ++ ".") = name ++ ".".
Proof.
  split.
  - induction name as [|c name IH]; [reflexivity|]. cbn.
    intros H. apply andb_prop in H. destruct H as [H1 H2].
    apply andb_prop in H1. destruct H1 as [_ H1].
    destruct (Ascii.eqb c "."%char); [discriminate|]. cbn.
    now rewrite (IH H2).
  - induction name as [|c name IH]; [reflexivity|]. cbn.
    change (name ++ String "."%char EmptyString) with (name ++ ".") in *.
    rewrite IH.
    change (name ++ ".") with (name ++ String "."%char EmptyString).
    rewrite no_slash_or_dot_app_dot. now rewrite !andb_false_r.
Qed.

Lemma strip_extension_keeps_a_name_without_extension_witness :
  no_slash_or_dot "README" = true /\ strip_extension "README" = "README".
Proof.
  split; [reflexivity|].
  apply (proj1 (strip_extension_keeps_a_name_without_extension "README")).
  reflexivity.
Defined.



(** * Through the buttons, no processing before a check *)

Lemma checkImage_settled_results (fetched : settled Response) (s : Home) :
  truthy (Some (CheckState.results (checkState (checkImage_settled fetched s)))) = true ->
  truthy (Some (CheckState.results (checkState s))) = true
  \/ stores_check_result (CheckSettled fetched) = true.
Proof.
  unfold checkImage_settled, checkImage_try, stores_check_result.
  destruct fetched as [response|e]; [|now left].
  destruct (ok response); cbn [negb andb].
  - destruct (json_body response) as [body|e]; [|now left].
    destruct body; cbn -[truthy]; intros H; right; exact H.
  - destruct (text response); now left.
Qed.

Lemma handleDimensionChange_checkState (field : Field) (value : Z) (s : Home) :
  checkState (handleDimensionChange field value s) = checkState s.
Proof.
  unfold handleDimensionChange.
  destruct (originalDimensions s); destruct field; reflexivity.
Qed.

Lemma processImage_settled_checkState
    (fetched : settled Response) (s : Home) (b : Browser) :
  checkState (fst (fst (processImage_settled fetched s b))) = checkState s.
Proof.
  unfold processImage_settled. outcomes fetched blob; reflexivity.
Qed.

(** One event keeps the gate: if a truthy result is stored, or a processing
    request was sent, then an event that stored a truthy result has
    occurred. *)
Lemma handle_keeps_the_gate (e : Event) (w : World) (seen : bool) :
  (truthy (Some (CheckState.results (checkState (home w)))) = true -> seen = true) ->
  (existsb is_process_request (sent w) = true -> seen = true) ->
  (truthy (Some (CheckState.results (checkState (home (handle e w))))) = true ->
     seen || stores_check_result e = true)
  /\ (existsb is_process_request (sent (handle e w)) = true ->
        seen || stores_check_result e = true).
Proof.
  intros Hr Hs.
  assert (Keep : forall s' rs,
            checkState s' = checkState (home w) -> rs = sent w ->
            (truthy (Some (CheckState.results (checkState s'))) = true ->
               seen || false = true)
            /\ (existsb is_process_request rs = true -> seen || false = true)).
  { intros s' rs -> ->. rewrite orb_false_r. now split. }
  destruct e; cbn [handle home sent stores_check_result];
    try (apply Keep; reflexivity).
  - (* Drop *)
    apply Keep; [|reflexivity]. unfold onDrop.
    destruct rejectedFiles; [destruct acceptedFiles|]; reflexivity.
  - (* UploadDecoded *)
    rewrite orb_false_r. split; [discriminate | exact Hs].
  - (* ChangeDimension *)
    apply Keep; [|reflexivity].
    apply handleDimensionChange_checkState.
  - (* ClickCheck *)
    rewrite orb_false_r. unfold click_check, checkImage.
    destruct (buttons_rendered (home w) && negb (checkButton_disabled (home w)));
      [destruct (originalImage (home w))|]; cbn; now split.
  - (* CheckSettled *)
    split.
    + intros H. destruct (checkImage_settled_results fetched (home w) H) as [H1|H1].
      * now rewrite (Hr H1).
      * cbn [stores_check_result] in H1. rewrite H1. apply orb_true_r.
    + intros H. now rewrite (Hs H).
  - (* ClickProcess *)
    rewrite orb_false_r. unfold click_process.
    destruct (buttons_rendered (home w)) eqn:B; cbn [andb]; [|now split].
    destruct (processButton_disabled (home w)) eqn:D; cbn [negb]; [now split|].
    assert (T : truthy (Some (CheckState.results (checkState (home w)))) = true).
    { unfold processButton_disabled in D. apply orb_false_elim in D.
      destruct D as [_ D]. now apply negb_false_iff in D. }
    unfold processImage. destruct (originalImage (home w)); cbn; split; auto.
  - (* ProcessSettled *)
    rewrite orb_false_r.
    pose proof (processImage_settled_checkState fetched (home w) (browser w)) as E.
    destruct (processImage_settled fetched (home w) (browser w)) as [[s' b'] p].
    cbn [fst home sent] in *. rewrite E. now split.
  - (* ClickOnlyFailed *)
    apply Keep; [|reflexivity]. unfold selectOnlyFailed.
    destruct (CheckState.results (checkState (home w))); reflexivity.
  - (* ClickReset *)
    rewrite orb_false_r. unfold reset.
    destruct (ProcessingState.processedImage (state (home w))); cbn;
      (split; [discriminate | exact Hs]).
Qed.

Lemma run_keeps_the_gate (events : list Event) (w : World) (seen : bool) :
  (truthy (Some (CheckState.results (checkState (home w)))) = true -> seen = true) ->
  (existsb is_process_request (sent w) = true -> seen = true) ->
  existsb is_process_request (sent (run events w)) = true ->
  seen || existsb stores_check_result events = true.
Proof.
  revert w seen. induction events as [|e events IH]; intros w seen Hr Hs H.
  - cbn in *. rewrite orb_false_r. now apply Hs.
  - destruct (handle_keeps_the_gate e w seen Hr Hs) as [Hr' Hs'].
    change (run (e :: events) w) with (run events (handle e w)) in H.
    pose proof (IH (handle e w) (seen || stores_check_result e) Hr' Hs' H) as K.
    cbn [existsb]. now rewrite orb_assoc.
Qed.

(** Along every run of the page, a processing request is sent only after
    some check response with a success status and a truthy body has been
    stored: through the buttons there is no processing before a check. *)
Theorem no_processing_before_a_check_result (events : list Event) :
  existsb is_process_request (sent (run events start)) = true ->
  existsb stores_check_result events = true.
Proof.
  intros H.
  apply (run_keeps_the_gate events start false); [discriminate | discriminate | exact H].
Qed.

Lemma no_processing_before_a_check_result_witness :
  existsb is_process_request (sent (run processed_twice start)) = true
  /\ existsb stores_check_result processed_twice = true.
Proof.
  split; [reflexivity|].
  apply (no_processing_before_a_check_result processed_twice). reflexivity.
Defined.

(** * The statements above, exercised *)

Lemma edit_touches_only_the_dimensions_witness :
  originalImage (checked 800 600) = Some {| file := photo; preview := data_url |}
  /\ snd (checkImage (handleDimensionChange Width 400 (checked 800 600)))
     = [CheckImage photo 400 300].
Proof.
  split; [reflexivity|].
  assert (D : dimensions (handleDimensionChange Width 400 (checked 800 600))
              = {| width := 400; height := 300 |}) by (vm_compute; reflexivity).
  pose proof (proj1 (proj2 (proj2 (proj2 (proj2 (proj2 (proj2 (proj2
                (edit_touches_only_the_dimensions Width 400 (checked 800 600))))))))
                {| file := photo; preview := data_url |} eq_refl)) as E.
  cbn zeta in E. rewrite D in E. exact E.
Defined.

Lemma check_always_settles_witness :
  check_succeeds server_error = false
  /\ CheckState.error
       (checkState (checkImage_settled server_error
                      (fst (checkImage (uploaded 800 600))))) <> None.
Proof.
  split; [reflexivity|].
  apply (proj2 (proj2 (check_always_settles server_error
                         (fst (checkImage (uploaded 800 600)))))).
  reflexivity.
Defined.

Lemma check_failure_unparsed_is_atomic_witness :
  check_fails_unparsed server_error = true
  /\ CheckState.results
       (checkState (checkImage_settled server_error
                      (fst (checkImage (checked 800 600)))))
     = check_body false true false.
Proof.
  split; [reflexivity|].
  exact (proj1 (check_failure_unparsed_is_atomic server_error
                  (fst (checkImage (checked 800 600))) eq_refl)).
Defined.

Lemma object_urls_outnumber_resets_witness :
  is_reset ClickSelectAll = false
  /\ created (browser (run (processed_twice ++ [ClickReset]) start)) = 2%nat
  /\ revoked (browser (handle ClickSelectAll (run processed_twice start))) = [].
Proof.
  split; [reflexivity|]. split.
  - exact (proj1 (object_urls_outnumber_resets (processed_twice ++ [ClickReset]))).
  - rewrite (proj2 (proj2 (proj2 (object_urls_outnumber_resets processed_twice)))
               ClickSelectAll (run processed_twice start) eq_refl).
    reflexivity.
Defined.
